(** * Hybrid retrieval engine (services/intelligence/rag/hybrid_search.py)

    A shallow embedding of [QueryEnhancer] and [HybridSearchEngine].

    Conventions of the model:
    - a Python [str] is a [string] of 8-bit characters; [lower] and the
      whitespace test act on the ASCII range and leave other bytes alone;
    - a Python [float] is an exact rational of [Q]: rounding is not modelled,
      [ZeroDivisionError] is;
    - a metadata [dict] is a [gmap string value]; the merge dictionary of
      [hybrid_search], whose iteration order matters, is an association list
      kept in insertion order;
    - the ChromaDB collection and the [rank_bm25] scorer are external: they
      are fields of a [Store] record the engine is run against;
    - [list.sort(key=..., reverse=True)] is a stable sort: equal keys keep
      their original order. *)

From Stdlib Require Import QArith ZArith Ascii String List Lia Sorted Permutation.
From stdpp Require Import gmap strings list.

Local Open Scope Z_scope.
Local Open Scope string_scope.
Local Open Scope list_scope.

(** ** Python string primitives *)

Module PyStr.

Definition chars (s : string) : list ascii := list_ascii_of_string s.
Definition str (l : list ascii) : string := string_of_list_ascii l.

(** [str.isspace] on the ASCII range: TAB..CR, FS..US and the blank. *)
Definition is_space (c : ascii) : bool :=
  let n := nat_of_ascii c in
  (Nat.leb 9 n && Nat.leb n 13) || (Nat.leb 28 n && Nat.leb n 32).

Definition lower_char (c : ascii) : ascii :=
  let n := nat_of_ascii c in
  if Nat.leb 65 n && Nat.leb n 90 then ascii_of_nat (n + 32) else c.

(** [s.lower()] *)
Definition lower (s : string) : string := str (map lower_char (chars s)).

Fixpoint lstrip_chars (l : list ascii) : list ascii :=
  match l with
  | c :: l' => if is_space c then lstrip_chars l' else l
  | [] => []
  end.

(** [s.strip()] *)
Definition strip (s : string) : string :=
  str (rev (lstrip_chars (rev (lstrip_chars (chars s))))).

Fixpoint split_go (cur : list ascii) (l : list ascii) : list string :=
  match l with
  | [] => match cur with [] => [] | _ => [str (rev cur)] end
  | c :: l' =>
      if is_space c
      then match cur with
           | [] => split_go [] l'
           | _ => str (rev cur) :: split_go [] l'
           end
      else split_go (c :: cur) l'
  end.

(** [s.split()]: maximal runs of non-blank characters. *)
Definition split (s : string) : list string := split_go [] (chars s).

Fixpoint starts_with (p l : list ascii) : bool :=
  match p, l with
  | [], _ => true
  | _ :: _, [] => false
  | a :: p', b :: l' => if Ascii.eqb a b then starts_with p' l' else false
  end.

(** Left-to-right scan of [s.replace(old, new)] for a non-empty [old];
    [skip] counts the characters of a match still to be consumed. *)
Fixpoint replace_go (old new : list ascii) (skip : nat) (l : list ascii)
  : list ascii :=
  match l with
  | [] => []
  | c :: l' =>
      match skip with
      | S k => replace_go old new k l'
      | O =>
          if starts_with old l
          then new ++ replace_go old new (length old - 1) l'
          else c :: replace_go old new 0 l'
      end
  end.

(** [s.replace(old, new)] *)
Definition replace (old new s : string) : string :=
  match chars old with
  | [] => str (chars new ++ flat_map (fun c => c :: chars new) (chars s))
  | o => str (replace_go o (chars new) 0 (chars s))
  end.

(** [sep.join(l)] *)
Definition join (sep : string) (l : list string) : string :=
  String.concat sep l.

(** [s[:n]] for a non-negative literal [n] *)
Definition take (n : nat) (s : string) : string := String.substring 0 n s.

(** [needle in s] *)
Fixpoint contains_go (p l : list ascii) : bool :=
  match l with
  | [] => starts_with p []
  | _ :: l' => starts_with p l || contains_go p l'
  end.

Definition contains (needle s : string) : bool :=
  contains_go (chars needle) (chars s).

End PyStr.

(** ** QueryEnhancer *)

Module QueryEnhancer.

(** [self.tech_synonyms]: only ever looked up by key. *)
Definition tech_synonyms : gmap string (list string) :=
  list_to_map
    [ ("mdm", ["mobile device management"; "device management"]);
      ("android", ["android device"; "mobile device"]);
      ("windows", ["windows device"; "pc"; "desktop"]);
      ("suremdm", ["42gears mdm"; "device management platform"]);
      ("kiosk", ["kiosk mode"; "single app mode"; "locked mode"]);
      ("app", ["application"; "software"; "program"]);
      ("install", ["installation"; "deployment"; "setup"]);
      ("configuration", ["config"; "settings"; "setup"]);
      ("policy", ["policies"; "rules"; "restrictions"]);
      ("security", ["protection"; "safety"; "secure"]) ].

(** [self.common_misspellings]: iterated with [.items()], in insertion
    order. *)
Definition common_misspellings : list (string * string) :=
  [ ("andriod", "android");
    ("winodws", "windows");
    ("configuratin", "configuration");
    ("instalation", "installation");
    ("managment", "management") ].

(** The first loop of [enhance_query]. *)
Definition fix_misspellings (enhanced : string) : string :=
  fold_left (fun acc wc => PyStr.replace (fst wc) (snd wc) acc)
            common_misspellings enhanced.

(** One iteration of the second loop: [append] the word, then [extend]
    with its synonyms when it is a key of the table. *)
Definition add_word (enhanced_words : list string) (word : string)
  : list string :=
  let enhanced_words := enhanced_words ++ [word] in
  match tech_synonyms !! word with
  | Some syns => enhanced_words ++ syns
  | None => enhanced_words
  end.

Definition enhanced_words_of (words : list string) : list string :=
  fold_left add_word words [].

Definition enhance_query (query : string) : string :=
  let enhanced := PyStr.strip (PyStr.lower query) in
  let enhanced := fix_misspellings enhanced in
  let words := PyStr.split enhanced in
  PyStr.join " " (enhanced_words_of words).

(** The set literal [stop_words] of [extract_keywords]. *)
Definition stop_words : gset string :=
  list_to_set
    [ "the"; "a"; "an"; "and"; "or"; "but"; "in"; "on"; "at"; "to"; "for";
      "of"; "with"; "by"; "how"; "what"; "where"; "when"; "why" ].

(** The condition of the list comprehension of [extract_keywords]. *)
Definition is_keyword (word : string) : Prop :=
  (word ∉ stop_words) /\ (2 < String.length word)%nat.

#[global] Instance is_keyword_dec (word : string) : Decision (is_keyword word).
Proof. unfold is_keyword. apply _. Defined.

Definition extract_keywords (query : string) : list string :=
  let words := PyStr.split (PyStr.lower query) in
  filter is_keyword words.

End QueryEnhancer.

(** ** Values, dictionaries and Python list primitives *)

(** Metadata values: strings, and the integer [doc_index] the lexical index
    adds. *)
Inductive value : Type :=
| VStr (s : string)
| VInt (n : Z).

#[global] Instance value_eq_dec : EqDecision value.
Proof. solve_decision. Defined.

(** Truth value of [if doc_id:] *)
Definition truthy (v : value) : bool :=
  match v with
  | VStr s => negb (String.eqb s "")
  | VInt n => negb (Z.eqb n 0)
  end.

Abbreviation Metadata := (gmap string value).

(** [m.get(k, d)] *)
Definition dict_get (m : Metadata) (k : string) (d : value) : value :=
  default d (m !! k).

(** Outcome of a call: a returned value or a propagated exception. *)
Inductive outcome (A : Type) : Type :=
| Returned (a : A)
| Raised (msg : string).
Arguments Returned {A} a.
Arguments Raised {A} msg.

Module Py.

(** [l[:n]] for any integer [n]: a negative [n] counts from the end. *)
Definition slice {A} (n : Z) (l : list A) : list A :=
  if Z.leb 0 n then firstn (Z.to_nat n) l
  else firstn (length l - Z.to_nat (- n)) l.

(** [enumerate(l)], counting from [i] *)
Fixpoint enumerate_from {A} (i : nat) (l : list A) : list (nat * A) :=
  match l with
  | [] => []
  | x :: l' => (i, x) :: enumerate_from (S i) l'
  end.

Definition enumerate {A} (l : list A) : list (nat * A) := enumerate_from 0 l.

(** [zip(a, b, c)]: stops at the shortest argument. *)
Fixpoint zip3 {A B C} (a : list A) (b : list B) (c : list C)
  : list (A * B * C) :=
  match a, b, c with
  | x :: a', y :: b', z :: c' => (x, y, z) :: zip3 a' b' c'
  | _, _, _ => []
  end.

Definition Qltb (x y : Q) : bool := negb (Qle_bool y x).

(** Stable insertion for a descending order on [key]: [x] goes in front of
    the first element whose key is not greater than its own. *)
Fixpoint insert_desc {A} (key : A -> Q) (x : A) (l : list A) : list A :=
  match l with
  | [] => [x]
  | y :: l' =>
      if Qltb (key x) (key y) then y :: insert_desc key x l'
      else x :: l
  end.

(** [l.sort(key=key, reverse=True)]: descending, equal keys keep their
    original order. *)
Fixpoint sort_desc {A} (key : A -> Q) (l : list A) : list A :=
  match l with
  | [] => []
  | x :: l' => insert_desc key x (sort_desc key l')
  end.

(** An insertion-ordered [dict] keyed by [value]. *)
Definition odict (V : Type) : Type := list (value * V).

Fixpoint lookup {V} (k : value) (d : odict V) : option V :=
  match d with
  | [] => None
  | (k', v) :: d' => if decide (k = k') then Some v else lookup k d'
  end.

(** [d[k] = v]: an existing key keeps its position. *)
Fixpoint set {V} (k : value) (v : V) (d : odict V) : odict V :=
  match d with
  | [] => [(k, v)]
  | (k', v') :: d' =>
      if decide (k = k') then (k, v) :: d' else (k', v') :: set k v d'
  end.

(** In-place update of the value stored under an existing key. *)
Fixpoint alter {V} (f : V -> V) (k : value) (d : odict V) : odict V :=
  match d with
  | [] => []
  | (k', v') :: d' =>
      if decide (k = k') then (k', f v') :: d' else (k', v') :: alter f k d'
  end.

End Py.

(** ** Results *)

(** The dictionaries built by [vector_search]. *)
Record VectorHit : Type := mkVectorHit {
  vh_content : string;
  vh_metadata : Metadata;
  vh_vector_score : Q;
  vh_rank : Z }.

(** The dictionaries built by [bm25_search]. *)
Record BM25Hit : Type := mkBM25Hit {
  bh_content : string;
  bh_metadata : Metadata;
  bh_bm25_score : Q;
  bh_rank : Z }.

(** The values of [combined_results]; a rank key is absent until set. *)
Record Combined : Type := mkCombined {
  c_content : string;
  c_metadata : Metadata;
  c_vector_score : Q;
  c_bm25_score : Q;
  c_vector_rank : option Z;
  c_bm25_rank : option Z }.

Module SearchResult.
Record t : Type := mk {
  id : value;
  title : value;
  content : string;
  url : value;
  source : value;
  category : value;
  vector_score : Q;
  bm25_score : Q;
  hybrid_score : Q;
  metadata : Metadata }.
End SearchResult.

(** ** External collaborators *)

(** The ChromaDB collection and the [rank_bm25] library, as seen by the
    engine.  [None] and [inl] stand for a raised exception. *)
Record Store : Type := mkStore {
  (** [collection.get(include=['documents','metadatas'])] *)
  collection_get : string + (list string * list Metadata);
  (** [collection.query(query_texts=[q], n_results=n, include=...)], reduced
      to the three inner lists [results[...][0]] *)
  collection_query : string -> Z -> option (list string * list Metadata * list Q);
  (** [BM25Okapi(corpus)]: [Some msg] when the constructor raises *)
  bm25_okapi_raises : list (list string) -> option string;
  (** [BM25Okapi(corpus).get_scores(query_tokens)] *)
  get_scores : list (list string) -> list string -> list Q }.

(** ** HybridSearchEngine *)

Record HybridSearchEngine : Type := mkEngine {
  vector_weight : Q;
  bm25_weight : Q;
  (** the scorer is identified with the corpus it was built from *)
  bm25_index : option (list (list string));
  documents_corpus : list (list string);
  documents_metadata : list Metadata;
  _bm25_initialized : bool }.

(** [__init__], past the connection to the store. *)
Definition new_engine (vector_weight bm25_weight : Q) : HybridSearchEngine :=
  {| vector_weight := vector_weight;
     bm25_weight := bm25_weight;
     bm25_index := None;
     documents_corpus := [];
     documents_metadata := [];
     _bm25_initialized := false |}.

(** The display form of a content string: [c[:500] + '...' if len(c) > 500
    else c]. *)
Definition display (c : string) : string :=
  if Nat.ltb 500 (String.length c) then PyStr.take 500 c ++ "..." else c.

(** [result['metadata'].get('url', result['metadata'].get('id', ''))] *)
Definition doc_id_of (m : Metadata) : value :=
  dict_get m "url" (dict_get m "id" (VStr "")).

Section HybridSearchEngine.

Variable store : Store.

Definition _initialize_bm25 (e : HybridSearchEngine) : outcome HybridSearchEngine :=
  if _bm25_initialized e then Returned e
  else
    match collection_get store with
    | inl msg => Raised msg
    | inr (documents, metadatas) =>
        match documents with
        | [] => Returned e
        | _ =>
            let pairs := combine documents metadatas in
            let corpus :=
              map (fun dm => PyStr.split (PyStr.lower (fst dm))) pairs in
            let metas :=
              map (fun idm => <["doc_index" := VInt (Z.of_nat (fst idm))]>
                                (snd (snd idm)))
                  (Py.enumerate pairs) in
            match bm25_okapi_raises store corpus with
            | Some msg => Raised msg
            | None =>
                Returned {| vector_weight := vector_weight e;
                            bm25_weight := bm25_weight e;
                            bm25_index := Some corpus;
                            documents_corpus := corpus;
                            documents_metadata := metas;
                            _bm25_initialized := true |}
            end
        end
    end.

(** The loop of [vector_search]; [None] is the [ZeroDivisionError] of
    [1.0 / (1.0 + distance)]. *)
Fixpoint vector_hits (i : Z) (l : list (string * Metadata * Q))
  : option (list VectorHit) :=
  match l with
  | [] => Some []
  | (doc, metadata, distance) :: l' =>
      if Qeq_bool (1 + distance) 0 then None
      else
        let similarity := (1 / (1 + distance))%Q in
        match vector_hits (i + 1) l' with
        | None => None
        | Some rest =>
            Some ({| vh_content := doc;
                     vh_metadata := metadata;
                     vh_vector_score := similarity;
                     vh_rank := i + 1 |} :: rest)
        end
  end.

Definition vector_search (query : string) (n_results : Z)
  : list VectorHit :=
  match collection_query store query n_results with
  | None => []
  | Some (documents, metadatas, distances) =>
      match vector_hits 0 (Py.zip3 documents metadatas distances) with
      | Some search_results => search_results
      | None => []
      end
  end.

(** The loop of [bm25_search] over [scored_docs[:n_results]]; [None] is an
    [IndexError] of one of the two list accesses. *)
Fixpoint bm25_hits (e : HybridSearchEngine) (rank : Z) (l : list (nat * Q))
  : option (list BM25Hit) :=
  match l with
  | [] => Some []
  | (doc_index, score) :: l' =>
      if Py.Qltb 0 score then
        match documents_corpus e !! doc_index,
              documents_metadata e !! doc_index with
        | Some tokens, Some metadata =>
            match bm25_hits e (rank + 1) l' with
            | None => None
            | Some rest =>
                Some ({| bh_content := PyStr.join " " tokens;
                         bh_metadata := metadata;
                         bh_bm25_score := score;
                         bh_rank := rank + 1 |} :: rest)
            end
        | _, _ => None
        end
      else bm25_hits e (rank + 1) l'
  end.

(** [scored_docs] after the sort. *)
Definition scored_docs (index : list (list string)) (query : string)
  : list (nat * Q) :=
  let query_tokens := PyStr.split (PyStr.lower query) in
  let scores := get_scores store index query_tokens in
  Py.sort_desc snd (Py.enumerate scores).

(** [bm25_search] once the lazy initialisation is over. *)
Definition bm25_ranked (e : HybridSearchEngine) (query : string) (n_results : Z)
  : list BM25Hit :=
  match bm25_index e with
  | None => []
  | Some index =>
      match bm25_hits e 0 (Py.slice n_results (scored_docs index query)) with
      | Some search_results => search_results
      | None => []
      end
  end.

Definition bm25_search (e : HybridSearchEngine) (query : string) (n_results : Z)
  : outcome (HybridSearchEngine * list BM25Hit) :=
  match (if _bm25_initialized e then Returned e else _initialize_bm25 e) with
  | Raised msg => Raised msg
  | Returned e' => Returned (e', bm25_ranked e' query n_results)
  end.

(** The entry stored for a vector hit. *)
Definition vector_entry (result : VectorHit) : Combined :=
  {| c_content := vh_content result;
     c_metadata := vh_metadata result;
     c_vector_score := vh_vector_score result;
     c_bm25_score := 0;
     c_vector_rank := Some (vh_rank result);
     c_bm25_rank := None |}.

(** The entry stored for a lexical hit whose key is new. *)
Definition bm25_entry (result : BM25Hit) : Combined :=
  {| c_content := bh_content result;
     c_metadata := bh_metadata result;
     c_vector_score := 0;
     c_bm25_score := bh_bm25_score result;
     c_vector_rank := None;
     c_bm25_rank := Some (bh_rank result) |}.

(** The two assignments made to an entry whose key is already there. *)
Definition set_bm25 (result : BM25Hit) (c : Combined) : Combined :=
  {| c_content := c_content c;
     c_metadata := c_metadata c;
     c_vector_score := c_vector_score c;
     c_bm25_score := bh_bm25_score result;
     c_vector_rank := c_vector_rank c;
     c_bm25_rank := Some (bh_rank result) |}.

(** First loop of [hybrid_search]. *)
Definition add_vector (combined_results : Py.odict Combined) (result : VectorHit)
  : Py.odict Combined :=
  let doc_id := doc_id_of (vh_metadata result) in
  if truthy doc_id then
    Py.set doc_id (vector_entry result) combined_results
  else combined_results.

(** Second loop of [hybrid_search]. *)
Definition add_bm25 (combined_results : Py.odict Combined) (result : BM25Hit)
  : Py.odict Combined :=
  let doc_id := doc_id_of (bh_metadata result) in
  if truthy doc_id then
    match Py.lookup doc_id combined_results with
    | Some _ => Py.alter (set_bm25 result) doc_id combined_results
    | None => combined_results ++ [(doc_id, bm25_entry result)]
    end
  else combined_results.

Definition combined_results (vector_results : list VectorHit)
           (bm25_results : list BM25Hit) : Py.odict Combined :=
  fold_left add_bm25 bm25_results (fold_left add_vector vector_results []).

(** Body of the third loop of [hybrid_search]. *)
Definition make_result (e : HybridSearchEngine) (entry : value * Combined)
  : SearchResult.t :=
  let '(doc_id, result) := entry in
  let vector_score := c_vector_score result in
  let bm25_score := c_bm25_score result in
  let hybrid_score :=
    (vector_weight e * vector_score + bm25_weight e * bm25_score)%Q in
  {| SearchResult.id := dict_get (c_metadata result) "id" doc_id;
     SearchResult.title := dict_get (c_metadata result) "title" (VStr "Unknown");
     SearchResult.content := display (c_content result);
     SearchResult.url := dict_get (c_metadata result) "url" (VStr "");
     SearchResult.source := dict_get (c_metadata result) "source" (VStr "unknown");
     SearchResult.category := dict_get (c_metadata result) "category" (VStr "unknown");
     SearchResult.vector_score := vector_score;
     SearchResult.bm25_score := bm25_score;
     SearchResult.hybrid_score := hybrid_score;
     SearchResult.metadata := c_metadata result |}.

(** [final_results] after the sort, before the final slice. *)
Definition final_results (e : HybridSearchEngine) (vector_results : list VectorHit)
           (bm25_results : list BM25Hit) : list SearchResult.t :=
  Py.sort_desc SearchResult.hybrid_score
    (map (make_result e) (combined_results vector_results bm25_results)).

Definition hybrid_search (e : HybridSearchEngine) (query : string) (n_results : Z)
  : outcome (HybridSearchEngine * list SearchResult.t) :=
  let enhanced_query := QueryEnhancer.enhance_query query in
  let vector_results := vector_search enhanced_query (n_results * 2) in
  match bm25_search e enhanced_query (n_results * 2) with
  | Raised msg => Raised msg
  | Returned (e', bm25_results) =>
      Returned (e', Py.slice n_results
                      (final_results e' vector_results bm25_results))
  end.

Definition of_vector_hit (r : VectorHit) : SearchResult.t :=
  {| SearchResult.id := dict_get (vh_metadata r) "id" (VStr "");
     SearchResult.title := dict_get (vh_metadata r) "title" (VStr "Unknown");
     SearchResult.content := display (vh_content r);
     SearchResult.url := dict_get (vh_metadata r) "url" (VStr "");
     SearchResult.source := dict_get (vh_metadata r) "source" (VStr "unknown");
     SearchResult.category := dict_get (vh_metadata r) "category" (VStr "unknown");
     SearchResult.vector_score := vh_vector_score r;
     SearchResult.bm25_score := 0;
     SearchResult.hybrid_score := vh_vector_score r;
     SearchResult.metadata := vh_metadata r |}.

Definition of_bm25_hit (r : BM25Hit) : SearchResult.t :=
  {| SearchResult.id := dict_get (bh_metadata r) "id" (VStr "");
     SearchResult.title := dict_get (bh_metadata r) "title" (VStr "Unknown");
     SearchResult.content := display (bh_content r);
     SearchResult.url := dict_get (bh_metadata r) "url" (VStr "");
     SearchResult.source := dict_get (bh_metadata r) "source" (VStr "unknown");
     SearchResult.category := dict_get (bh_metadata r) "category" (VStr "unknown");
     SearchResult.vector_score := 0;
     SearchResult.bm25_score := bh_bm25_score r;
     SearchResult.hybrid_score := bh_bm25_score r;
     SearchResult.metadata := bh_metadata r |}.

Definition search (e : HybridSearchEngine) (query : string) (n_results : Z)
           (search_type : string)
  : outcome (HybridSearchEngine * list SearchResult.t) :=
  if String.eqb search_type "vector" then
    Returned (e, map of_vector_hit (vector_search query n_results))
  else if String.eqb search_type "bm25" then
    match bm25_search e query n_results with
    | Raised msg => Raised msg
    | Returned (e', bm25_results) =>
        Returned (e', map of_bm25_hit bm25_results)
    end
  else hybrid_search e query n_results.

End HybridSearchEngine.

(** ** A small corpus to run the engine on *)

Module Demo.

(** A term-overlap scorer standing in for the external [rank_bm25]: the
    score of a document is the number of its tokens that occur in the
    query. *)
Definition overlap_scores (corpus : list (list string))
           (query_tokens : list string) : list Q :=
  map (fun doc =>
         inject_Z (Z.of_nat (length
           (List.filter (fun t => existsb (String.eqb t) query_tokens) doc))))
      corpus.

Definition meta (u t : string) : Metadata :=
  <["url" := VStr u]> (<["title" := VStr t]> ∅).

Definition documents : list string :=
  [ "android kiosk mode setup guide";
    "windows installation steps";
    "Kiosk   MODE lockdown" ].

Definition metadatas : list Metadata :=
  [ meta "https://kb/a" "A"; meta "https://kb/b" "B"; meta "https://kb/c" "C" ].

(** The vector store answers every query with document B at distance 1
    and a document X, unknown to the corpus, at distance 0. *)
Definition store : Store :=
  {| collection_get := inr (documents, metadatas);
     collection_query := fun _ _ =>
       Some (["windows installation steps"; "x"],
             [meta "https://kb/b" "B"; meta "https://kb/x" "X"],
             [1%Q; 0%Q]);
     bm25_okapi_raises := fun corpus =>
       match corpus with [] => Some "division by zero" | _ => None end;
     get_scores := overlap_scores |}.

(** The same corpus behind a store that is down: every call raises. *)
Definition store_down : Store :=
  {| collection_get := inl "connection refused";
     collection_query := fun _ _ => None;
     bm25_okapi_raises := fun _ => None;
     get_scores := overlap_scores |}.

(** The store whose queries raise after the corpus was read. *)
Definition store_query_down : Store :=
  {| collection_get := inr (documents, metadatas);
     collection_query := fun _ _ => None;
     bm25_okapi_raises := fun _ => None;
     get_scores := overlap_scores |}.

(** An empty corpus, and a vector store whose only candidate has an empty
    [url] next to a non-empty [id]. *)
Definition store_empty_url : Store :=
  {| collection_get := inr ([], []);
     collection_query := fun _ _ =>
       Some (["x"], [<["url" := VStr ""]> (<["id" := VStr "x"]> ∅)], [0%Q]);
     bm25_okapi_raises := fun _ => None;
     get_scores := overlap_scores |}.

(** Okapi BM25 as [rank_bm25.BM25Okapi] computes it ([k1 = 1.5],
    [b = 0.75], [epsilon = 0.25]), on exact rationals.  The natural logarithm
    of the inverse document frequency is replaced by the first terms of its
    artanh series, which have the sign of the logarithm. *)
Definition ln_series (r : Q) : Q :=
  let z := ((r - 1) / (r + 1))%Q in
  let z2 := (z * z)%Q in
  (2 * (z * (1 + z2 * ((1 # 3) + z2 * ((1 # 5) + z2 * (1 # 7))))))%Q.

Definition of_nat (n : nat) : Q := inject_Z (Z.of_nat n).

(** [nd[word]]: the number of documents that contain the word *)
Definition doc_count (corpus : list (list string)) (word : string) : nat :=
  length (List.filter (fun doc => existsb (String.eqb word) doc) corpus).

(** [math.log(corpus_size - freq + 0.5) - math.log(freq + 0.5)] *)
Definition raw_idf (corpus : list (list string)) (word : string) : Q :=
  let freq := of_nat (doc_count corpus word) in
  ln_series ((of_nat (length corpus) - freq + (1 # 2)) / (freq + (1 # 2))).

(** The keys of [self.idf] *)
Definition vocabulary (corpus : list (list string)) : list string :=
  nodup string_dec (concat corpus).

Definition average_idf (corpus : list (list string)) : Q :=
  (fold_right Qplus 0 (map (raw_idf corpus) (vocabulary corpus))
   / of_nat (length (vocabulary corpus)))%Q.

(** [self.idf.get(q) or 0], negative values floored at
    [epsilon * average_idf] *)
Definition okapi_idf (corpus : list (list string)) (word : string) : Q :=
  if existsb (String.eqb word) (vocabulary corpus) then
    let idf := raw_idf corpus word in
    if Py.Qltb idf 0 then ((1 # 4) * average_idf corpus)%Q else idf
  else 0%Q.

Definition avgdl (corpus : list (list string)) : Q :=
  (of_nat (length (concat corpus)) / of_nat (length corpus))%Q.

(** [BM25Okapi(corpus).get_scores(query)] *)
Definition okapi_scores (corpus : list (list string))
           (query_tokens : list string) : list Q :=
  map (fun doc =>
         fold_left
           (fun score q =>
              let q_freq := of_nat (count_occ string_dec doc q) in
              (score
               + okapi_idf corpus q
                 * (q_freq * (5 # 2)
                    / (q_freq
                       + (3 # 2) * ((1 # 4)
                                    + (3 # 4) * of_nat (length doc)
                                      / avgdl corpus))))%Q)
           query_tokens 0%Q)
      corpus.

(** A corpus of three documents, the first of 501 characters; only the
    first contains the word it is made of. *)
Definition long_text : string := PyStr.str (repeat "a"%char 501).

Definition store_long : Store :=
  {| collection_get :=
       inr ([long_text; "windows installation steps"; "android kiosk guide"],
            [meta "https://kb/long" "L"; meta "https://kb/b" "B";
             meta "https://kb/a" "A"]);
     collection_query := fun _ _ => None;
     bm25_okapi_raises := fun corpus =>
       match corpus with [] => Some "division by zero" | _ => None end;
     get_scores := okapi_scores |}.

(** A vector store whose second candidate is at distance -1. *)
Definition store_bad_distance : Store :=
  {| collection_get := inr ([], []);
     collection_query := fun _ _ =>
       Some (["a"; "b"], [meta "u" "A"; meta "v" "B"], [0%Q; (-1)%Q]);
     bm25_okapi_raises := fun _ => None;
     get_scores := overlap_scores |}.

Definition fresh : HybridSearchEngine := new_engine (7 # 10) (3 # 10).

(** The engine after its lexical index was built from [store]. *)
Definition built : HybridSearchEngine :=
  match _initialize_bm25 store fresh with
  | Returned e => e
  | Raised _ => fresh
  end.

(** The hits of the two branches for the query "kiosk mode", as enhanced
    by [hybrid_search]. *)
Definition hit_b : VectorHit :=
  {| vh_content := "windows installation steps";
     vh_metadata := meta "https://kb/b" "B";
     vh_vector_score := 1 / (1 + 1);
     vh_rank := 1 |}.

Definition hit_x : VectorHit :=
  {| vh_content := "x";
     vh_metadata := meta "https://kb/x" "X";
     vh_vector_score := 1 / (1 + 0);
     vh_rank := 2 |}.

Definition hit_empty_url : VectorHit :=
  {| vh_content := "x";
     vh_metadata := <["url" := VStr ""]> (<["id" := VStr "x"]> ∅);
     vh_vector_score := 1;
     vh_rank := 1 |}.

Definition lex_a : BM25Hit :=
  {| bh_content := "android kiosk mode setup guide";
     bh_metadata := <["doc_index" := VInt 0]> (meta "https://kb/a" "A");
     bh_bm25_score := 2;
     bh_rank := 1 |}.

Definition lex_c : BM25Hit :=
  {| bh_content := "kiosk mode lockdown";
     bh_metadata := <["doc_index" := VInt 2]> (meta "https://kb/c" "C");
     bh_bm25_score := 2;
     bh_rank := 2 |}.

End Demo.

(** ** Vocabulary of the statements *)

(** The order a stable descending sort produces from a list ordered by
    [before]: descending on [key], and [before] among equal keys. *)
Definition stable_desc {A} (key : A -> Q) (before : A -> A -> Prop)
           (a b : A) : Prop :=
  (key b < key a)%Q \/ (key b == key a /\ before a b).

Definition positive (p : nat * Q) : bool := Py.Qltb 0 (snd p).

(** A lexical hit and the scored document it was built from. *)
Definition hit_of (e : HybridSearchEngine) (p : nat * Q) (h : BM25Hit) : Prop :=
  bh_bm25_score h = snd p /\
  documents_metadata e !! fst p = Some (bh_metadata h) /\
  exists tokens, documents_corpus e !! fst p = Some tokens /\
                 bh_content h = PyStr.join " " tokens.

(** A vector hit and the candidate [(document, metadata, distance)] it was
    built from. *)
Definition cand_hit (c : string * Metadata * Q) (h : VectorHit) : Prop :=
  vh_content h = fst (fst c) /\
  vh_metadata h = snd (fst c) /\
  vh_vector_score h = (1 / (1 + snd c))%Q.

(** The merge keys of the hits. *)
Definition vkey (r : VectorHit) : value := doc_id_of (vh_metadata r).
Definition bkey (r : BM25Hit) : value := doc_id_of (bh_metadata r).

(** Where an entry of the merge dictionary comes from. *)
Definition from_vector (VR : list VectorHit) (BR : list BM25Hit)
           (k : value) (c : Combined) : Prop :=
  exists v, v ∈ VR /\ vkey v = k /\
    c_content c = vh_content v /\ c_metadata c = vh_metadata v /\
    c_vector_score c = vh_vector_score v /\
    (c_bm25_score c = 0%Q \/
     exists b, b ∈ BR /\ bkey b = k /\ c_bm25_score c = bh_bm25_score b).

Definition from_bm25 (BR : list BM25Hit) (k : value) (c : Combined) : Prop :=
  exists b, b ∈ BR /\ bkey b = k /\
    c_content c = bh_content b /\ c_metadata c = bh_metadata b /\
    c_vector_score c = 0%Q /\
    exists b', b' ∈ BR /\ bkey b' = k /\ c_bm25_score c = bh_bm25_score b'.

Definition provenance (VR : list VectorHit) (BR : list BM25Hit)
           (k : value) (c : Combined) : Prop :=
  truthy k = true /\ (from_vector VR BR k c \/ from_bm25 BR k c).

(** The store only ever returns non-negative distances. *)
Definition distances_nonnegative (store : Store) : Prop :=
  forall query n documents metadatas distances,
    collection_query store query n = Some (documents, metadatas, distances) ->
    Forall (fun d => (0 <= d)%Q) distances.

(** What [_initialize_bm25] and [bm25_search] make of a document: the
    blank-joined tokens of its lower-cased text. *)
Definition reconstruction (doc : string) : string :=
  PyStr.join " " (PyStr.split (PyStr.lower doc)).

(** A word followed by its synonyms. *)
Definition expansion (word : string) : list string :=
  word :: default [] (QueryEnhancer.tech_synonyms !! word).

(** A token as [split] produces it: not empty and free of blanks. *)
Definition token (w : string) : Prop :=
  PyStr.chars w <> [] /\
  Forall (fun c => PyStr.is_space c = false) (PyStr.chars w).

(** The identifier a result was merged under. *)
Definition result_key (r : SearchResult.t) : value :=
  doc_id_of (SearchResult.metadata r).

(** * Properties *)

(** ** Lists, slices and the stable descending sort *)

Section PyFacts.

Context {A : Type}.
Implicit Types (l : list A) (key : A -> Q).

Lemma slice_nonneg n l :
  0 <= n -> Py.slice n l = firstn (Z.to_nat n) l.
Proof.
  intros Hn. unfold Py.slice.
  destruct (Z.leb_spec 0 n); [reflexivity | lia].
Qed.

Lemma slice_zero l : Py.slice 0 l = [].
Proof. reflexivity. Qed.

Lemma slice_is_prefix n l : exists m, Py.slice n l = firstn m l.
Proof. unfold Py.slice. destruct (Z.leb 0 n); eauto. Qed.

Lemma slice_length n l :
  0 <= n -> Z.of_nat (length (Py.slice n l)) <= n.
Proof.
  intros Hn. rewrite slice_nonneg by assumption.
  rewrite length_take. lia.
Qed.

Lemma slice_lookup n l (i : nat) :
  Z.of_nat i < n -> Py.slice n l !! i = l !! i.
Proof.
  intros Hi. rewrite slice_nonneg by lia.
  apply lookup_take_lt. lia.
Qed.

Lemma slice_subseteq n l x : x ∈ Py.slice n l -> x ∈ l.
Proof.
  destruct (slice_is_prefix n l) as [m ->].
  intros Hx. rewrite <- (take_drop m l). apply elem_of_app. now left.
Qed.

Lemma insert_desc_perm key x l :
  Permutation (Py.insert_desc key x l) (x :: l).
Proof.
  induction l as [|y l IH]; simpl; [reflexivity|].
  destruct (Py.Qltb (key x) (key y)); [|reflexivity].
  rewrite IH. apply perm_swap.
Qed.

Lemma sort_desc_perm key l : Permutation (Py.sort_desc key l) l.
Proof.
  induction l as [|x l IH]; simpl; [reflexivity|].
  rewrite insert_desc_perm. now rewrite IH.
Qed.

Lemma sort_desc_elem key l x : x ∈ Py.sort_desc key l <-> x ∈ l.
Proof. now rewrite (sort_desc_perm key l). Qed.

Lemma Qltb_lt (x y : Q) : Py.Qltb x y = true <-> (x < y)%Q.
Proof.
  unfold Py.Qltb. rewrite negb_true_iff.
  split.
  - intros H. apply Qnot_le_lt. intros Hle.
    apply Qle_bool_iff in Hle. congruence.
  - intros H. destruct (Qle_bool y x) eqn:E; [|reflexivity].
    apply Qle_bool_iff in E. exfalso. eapply Qlt_not_le; eauto.
Qed.

Lemma Qltb_ge (x y : Q) : Py.Qltb x y = false <-> (y <= x)%Q.
Proof.
  unfold Py.Qltb. rewrite negb_false_iff. apply Qle_bool_iff.
Qed.

Lemma stable_desc_le key before a b :
  stable_desc key before a b -> (key b <= key a)%Q.
Proof.
  intros [H | [H _]]; [now apply Qlt_le_weak | rewrite H; apply Qle_refl].
Qed.

Lemma insert_desc_sorted key before x l :
  Forall (before x) l ->
  StronglySorted (stable_desc key before) l ->
  StronglySorted (stable_desc key before) (Py.insert_desc key x l).
Proof.
  intros Hx Hs. induction Hs as [|y l Hs IH Hy]; simpl.
  - repeat constructor.
  - apply Forall_cons in Hx as [Hxy Hxl].
    destruct (Py.Qltb (key x) (key y)) eqn:E.
    + constructor; [now apply IH|].
      rewrite (insert_desc_perm key x l). constructor; [|assumption].
      left. now apply Qltb_lt.
    + apply Qltb_ge in E.
      assert (Hxy' : stable_desc key before x y).
      { destruct (Qlt_le_dec (key y) (key x)) as [Hlt | Hle];
          [now left | right]. split; [now apply Qle_antisym | assumption]. }
      constructor; [now constructor|].
      constructor; [assumption|].
      rewrite Forall_forall in Hy, Hxl |- *. intros z Hz.
      pose proof (stable_desc_le _ _ _ _ (Hy z Hz)) as Hzy.
      destruct (Qlt_le_dec (key z) (key x)) as [Hlt | Hle]; [now left|].
      right. split; [|now apply Hxl].
      apply Qle_antisym; [|assumption].
      eapply Qle_trans; eassumption.
Qed.

Lemma sort_desc_stable key before l :
  StronglySorted before l ->
  StronglySorted (stable_desc key before) (Py.sort_desc key l).
Proof.
  induction 1 as [|x l Hs IH Hx]; simpl; [constructor|].
  apply insert_desc_sorted; [|assumption].
  rewrite Forall_forall in Hx |- *. intros y Hy.
  apply Hx. now apply sort_desc_elem in Hy.
Qed.

Lemma StronglySorted_take (R : A -> A -> Prop) n l :
  StronglySorted R l -> StronglySorted R (firstn n l).
Proof.
  intros Hs. revert n. induction Hs as [|x l Hs IH Hx]; intros [|n]; simpl;
    try constructor; auto.
  rewrite Forall_forall in Hx |- *. intros y Hy. apply Hx.
  rewrite <- (take_drop n l). apply elem_of_app. now left.
Qed.

Lemma StronglySorted_slice (R : A -> A -> Prop) n l :
  StronglySorted R l -> StronglySorted R (Py.slice n l).
Proof.
  destruct (slice_is_prefix n l) as [m ->]. apply StronglySorted_take.
Qed.

Lemma StronglySorted_lookup (R : A -> A -> Prop) l (i j : nat) a b :
  StronglySorted R l -> (i < j)%nat ->
  l !! i = Some a -> l !! j = Some b -> R a b.
Proof.
  intros Hs. revert i j. induction Hs as [|x l Hs IH Hx]; intros i j Hij Ha Hb.
  - now rewrite lookup_nil in Ha.
  - destruct j as [|j]; [lia|]. simpl in Hb.
    destruct i as [|i]; simpl in Ha.
    + inversion Ha; subst. rewrite Forall_forall in Hx. apply Hx.
      eapply list_elem_of_lookup_2; eauto.
    + eapply (IH i j); eauto. lia.
Qed.

End PyFacts.

Lemma enumerate_from_sorted {A} (i : nat) (l : list A) :
  StronglySorted (fun a b : nat * A => (fst a < fst b)%nat) (Py.enumerate_from i l)
  /\ Forall (fun a : nat * A => (i <= fst a)%nat) (Py.enumerate_from i l).
Proof.
  revert i. induction l as [|x l IH]; intros i; simpl.
  - split; constructor.
  - destruct (IH (S i)) as [Hs Hf]. split.
    + constructor; [assumption|].
      eapply Forall_impl; [exact Hf|]. simpl. intros; lia.
    + constructor; [simpl; lia|].
      eapply Forall_impl; [exact Hf|]. simpl. intros; lia.
Qed.

Lemma enumerate_from_lookup {A} (i : nat) (l : list A) (j : nat) :
  Py.enumerate_from i l !! j = (fun x => ((i + j)%nat, x)) <$> l !! j.
Proof.
  revert i j. induction l as [|x l IH]; intros i [|j]; simpl; try reflexivity.
  - now rewrite Nat.add_0_r.
  - rewrite IH. now rewrite Nat.add_succ_r.
Qed.

(** ** The lexical branch *)

Section Lexical.

Variable store : Store.

Lemma bm25_hits_filter e rank l hits :
  bm25_hits e rank l = Some hits ->
  Forall2 (hit_of e) (List.filter positive l) hits.
Proof.
  revert rank hits. induction l as [|[i sc] l IH]; intros rank hits H; simpl in *.
  - inversion H. constructor.
  - unfold positive at 1. simpl. destruct (Py.Qltb 0 sc).
    + destruct (documents_corpus e !! i) as [tokens|] eqn:Hc; [|discriminate].
      destruct (documents_metadata e !! i) as [m|] eqn:Hm; [|discriminate].
      destruct (bm25_hits e (rank + 1) l) as [rest|] eqn:Hr; [|discriminate].
      inversion H; subst. constructor; [|eauto].
      repeat split; simpl; eauto.
    + eauto.
Qed.


Lemma StronglySorted_filter {A} (R : A -> A -> Prop) (f : A -> bool) l :
  StronglySorted R l -> StronglySorted R (List.filter f l).
Proof.
  induction 1 as [|x l Hs IH Hx]; simpl; [constructor|].
  destruct (f x); [|assumption]. constructor; [assumption|].
  rewrite Forall_forall in Hx |- *. intros y Hy. apply Hx.
  apply list_elem_of_In in Hy. apply filter_In in Hy as [Hy _].
  now apply list_elem_of_In.
Qed.


Lemma scored_docs_sorted index query :
  StronglySorted
    (stable_desc snd (fun a b : nat * Q => (fst a < fst b)%nat))
    (scored_docs store index query).
Proof.
  unfold scored_docs. apply sort_desc_stable.
  apply (enumerate_from_sorted 0).
Qed.

(** The hits of [bm25_search], read against the ranked prefix they come
    from. *)
Lemma bm25_ranked_hits e query n index :
  bm25_index e = Some index ->
  bm25_ranked store e query n = [] \/
  Forall2 (hit_of e)
          (List.filter positive (Py.slice n (scored_docs store index query)))
          (bm25_ranked store e query n).
Proof.
  intros Hi. unfold bm25_ranked. rewrite Hi.
  destruct (bm25_hits e 0 _) as [hits|] eqn:Hh; [right | now left].
  eapply bm25_hits_filter; eauto.
Qed.

Lemma initialize_bm25_idem e :
  (if _bm25_initialized e then Returned e else _initialize_bm25 store e)
  = _initialize_bm25 store e.
Proof. unfold _initialize_bm25. now destruct (_bm25_initialized e). Qed.

Lemma bm25_search_built e query n :
  _bm25_initialized e = true ->
  bm25_search store e query n = Returned (e, bm25_ranked store e query n).
Proof. intros H. unfold bm25_search. now rewrite H. Qed.

Lemma bm25_search_init e query n :
  bm25_search store e query n =
  match _initialize_bm25 store e with
  | Raised msg => Raised msg
  | Returned e' => Returned (e', bm25_ranked store e' query n)
  end.
Proof. unfold bm25_search. now rewrite initialize_bm25_idem. Qed.


Lemma bm25_ranked_positive e query n :
  Forall (fun r => (0 < bh_bm25_score r)%Q) (bm25_ranked store e query n).
Proof.
  destruct (bm25_index e) as [index|] eqn:Hi.
  - destruct (bm25_ranked_hits e query n index Hi) as [-> | H]; [constructor|].
    remember (Py.slice n (scored_docs store index query)) as l eqn:El.
    assert (Hp : Forall (fun p => positive p = true) (List.filter positive l)).
    { rewrite Forall_forall. intros p Hp. apply list_elem_of_In in Hp.
      now apply filter_In in Hp as [_ Hp]. }
    clear El. induction H as [|p h ps hs Hph H IH]; [constructor|].
    inversion Hp; subst. constructor; [|auto].
    destruct Hph as [-> _]. now apply Qltb_lt.
  - unfold bm25_ranked. rewrite Hi. constructor.
Qed.


(** What [_initialize_bm25] leaves in a freshly built engine. *)
Lemma initialize_bm25_built e0 e :
  _bm25_initialized e0 = false ->
  _initialize_bm25 store e0 = Returned e ->
  _bm25_initialized e = true ->
  exists documents metadatas,
    collection_get store = inr (documents, metadatas) /\
    vector_weight e = vector_weight e0 /\
    bm25_weight e = bm25_weight e0 /\
    bm25_index e = Some (documents_corpus e) /\
    documents_corpus e =
      map (fun dm => PyStr.split (PyStr.lower (fst dm)))
          (combine documents metadatas) /\
    documents_metadata e =
      map (fun idm => <["doc_index" := VInt (Z.of_nat (fst idm))]>
                        (snd (snd idm)))
          (Py.enumerate (combine documents metadatas)).
Proof.
  intros H0 Hinit H1. unfold _initialize_bm25 in Hinit. rewrite H0 in Hinit.
  destruct (collection_get store) as [msg | [documents metadatas]];
    [discriminate|].
  destruct documents as [|d documents].
  - inversion Hinit; subst. congruence.
  - destruct (bm25_okapi_raises store _); [discriminate|].
    inversion Hinit; subst; simpl. exists (d :: documents), metadatas.
    repeat split; reflexivity.
Qed.

Lemma initialize_bm25_doc_index e0 e (i : nat) m :
  _bm25_initialized e0 = false ->
  _initialize_bm25 store e0 = Returned e ->
  _bm25_initialized e = true ->
  documents_metadata e !! i = Some m ->
  m !! "doc_index" = Some (VInt (Z.of_nat i)).
Proof.
  intros H0 Hinit H1 Hm.
  destruct (initialize_bm25_built e0 e H0 Hinit H1)
    as (documents & metadatas & _ & _ & _ & _ & _ & Hmeta).
  rewrite Hmeta in Hm. rewrite list_lookup_fmap in Hm.
  unfold Py.enumerate in Hm. rewrite enumerate_from_lookup in Hm.
  destruct (combine documents metadatas !! i) as [dm|]; [|discriminate].
  simpl in Hm. inversion Hm; subst. apply lookup_insert_eq.
Qed.

End Lexical.



(** C5: on an index built by [_initialize_bm25], two hits of [bm25_search]
    with equal scores come in the order of their corpus positions, which
    the hits carry as [doc_index]. *)
Theorem bm25_search_ties_keep_corpus_order (store : Store) (e0 e : HybridSearchEngine)
        (query : string) (k : Z) :
  _bm25_initialized e0 = false ->
  _initialize_bm25 store e0 = Returned e ->
  _bm25_initialized e = true ->
  exists hits,
    bm25_search store e query k = Returned (e, hits) /\
    forall (a b : nat) (ra rb : BM25Hit),
      (a < b)%nat -> hits !! a = Some ra -> hits !! b = Some rb ->
      (bh_bm25_score ra == bh_bm25_score rb)%Q ->
      exists i j : nat,
        bh_metadata ra !! "doc_index" = Some (VInt (Z.of_nat i)) /\
        bh_metadata rb !! "doc_index" = Some (VInt (Z.of_nat j)) /\
        (i < j)%nat.
Proof.
  intros H0 Hinit H1. exists (bm25_ranked store e query k).
  split; [now apply bm25_search_built|].
  intros a b ra rb Hab Ha Hb Heq.
  destruct (initialize_bm25_built store e0 e H0 Hinit H1)
    as (_ & _ & _ & _ & _ & Hidx & _ & _).
  destruct (bm25_ranked_hits store e query k _ Hidx) as [Hnil | H].
  { rewrite Hnil in Ha. now rewrite lookup_nil in Ha. }
  pose proof (StronglySorted_filter _ positive _
                (StronglySorted_slice _ k _
                   (scored_docs_sorted store (documents_corpus e) query))) as Hs.
  destruct (Forall2_lookup_r _ _ _ _ _ H Ha) as (pa & Hpa & Hha).
  destruct (Forall2_lookup_r _ _ _ _ _ H Hb) as (pb & Hpb & Hhb).
  pose proof (StronglySorted_lookup _ _ _ _ _ _ Hs Hab Hpa Hpb) as Hord.
  destruct Hha as (Hsa & Hma & _). destruct Hhb as (Hsb & Hmb & _).
  exists (fst pa), (fst pb).
  split; [eapply initialize_bm25_doc_index; eauto|].
  split; [eapply initialize_bm25_doc_index; eauto|].
  destruct Hord as [Hlt | [_ Hlt]]; [|exact Hlt].
  exfalso. rewrite <- Hsa, <- Hsb, Heq in Hlt. eapply Qlt_irrefl; eauto.
Qed.

(** Documents A (position 0) and C (position 2) both score 2 on "kiosk
    mode": A is returned first. *)
Lemma bm25_search_ties_keep_corpus_order_witness :
  exists (ra rb : BM25Hit) (i j : nat),
    bm25_search Demo.store Demo.built "kiosk mode" 5
      = Returned (Demo.built, [ra; rb]) /\
    (bh_bm25_score ra == bh_bm25_score rb)%Q /\
    bh_metadata ra !! "doc_index" = Some (VInt (Z.of_nat i)) /\
    bh_metadata rb !! "doc_index" = Some (VInt (Z.of_nat j)) /\
    (i < j)%nat.
Proof.
  destruct (bm25_search_ties_keep_corpus_order
              Demo.store Demo.fresh Demo.built "kiosk mode" 5)
    as (hits & Hs & Hord); [reflexivity | reflexivity | reflexivity |].
  assert (Hh : exists ra rb, hits = [ra; rb] /\
                 (bh_bm25_score ra == bh_bm25_score rb)%Q).
  { vm_compute in Hs. inversion Hs. eexists _, _. split; [reflexivity|].
    reflexivity. }
  destruct Hh as (ra & rb & -> & Heq).
  destruct (Hord 0%nat 1%nat ra rb) as (i & j & Hi & Hj & Hij);
    [lia | reflexivity | reflexivity | exact Heq |].
  exists ra, rb, i, j. repeat split; assumption.
Defined.

(** ** The merge dictionary *)

Section Odict.

Context {V : Type}.
Implicit Types (d : Py.odict V) (k : value) (v : V).

Lemma odict_lookup_elem k v d : Py.lookup k d = Some v -> (k, v) ∈ d.
Proof.
  induction d as [|[k' v'] d IH]; simpl; [discriminate|].
  destruct (decide (k = k')) as [<- | Hne].
  - intros [= ->]. apply list_elem_of_here.
  - intros H. apply list_elem_of_further. auto.
Qed.

Lemma odict_lookup_set_eq k v d : Py.lookup k (Py.set k v d) = Some v.
Proof.
  induction d as [|[k' v'] d IH]; simpl.
  - now destruct (decide (k = k)).
  - destruct (decide (k = k')) as [<- | Hne]; simpl.
    + now destruct (decide (k = k)).
    + now destruct (decide (k = k')).
Qed.

Lemma odict_lookup_set_ne k k' v d :
  k <> k' -> Py.lookup k' (Py.set k v d) = Py.lookup k' d.
Proof.
  intros Hne. induction d as [|[k1 v1] d IH]; simpl.
  - destruct (decide (k' = k)); congruence.
  - destruct (decide (k = k1)) as [<- | Hne1]; simpl.
    + destruct (decide (k' = k)); congruence.
    + destruct (decide (k' = k1)); congruence.
Qed.

Lemma odict_lookup_alter_eq f k d :
  Py.lookup k (Py.alter f k d) = f <$> Py.lookup k d.
Proof.
  induction d as [|[k1 v1] d IH]; simpl; [reflexivity|].
  destruct (decide (k = k1)) as [<- | Hne]; simpl.
  - now destruct (decide (k = k)).
  - now destruct (decide (k = k1)).
Qed.

Lemma odict_lookup_alter_ne f k k' d :
  k <> k' -> Py.lookup k' (Py.alter f k d) = Py.lookup k' d.
Proof.
  intros Hne. induction d as [|[k1 v1] d IH]; simpl; [reflexivity|].
  destruct (decide (k = k1)) as [<- | Hne1]; simpl.
  - destruct (decide (k' = k)); congruence.
  - destruct (decide (k' = k1)); congruence.
Qed.

Lemma odict_lookup_app k d d' :
  Py.lookup k (d ++ d') =
  match Py.lookup k d with Some v => Some v | None => Py.lookup k d' end.
Proof.
  induction d as [|[k1 v1] d IH]; simpl; [reflexivity|].
  now destruct (decide (k = k1)).
Qed.

(** Every binding of a [set] is the new one or an old one. *)
Lemma odict_elem_set k v d k' v' :
  (k', v') ∈ Py.set k v d -> (k' = k /\ v' = v) \/ (k', v') ∈ d.
Proof.
  induction d as [|[k1 v1] d IH]; simpl.
  - intros H. apply list_elem_of_singleton in H. inversion H. now left.
  - destruct (decide (k = k1)) as [<- | Hne]; intros H;
      apply elem_of_cons in H as [H | H].
    + inversion H. now left.
    + right. now apply list_elem_of_further.
    + right. rewrite H. apply list_elem_of_here.
    + destruct (IH H) as [? | ?]; [now left | right].
      now apply list_elem_of_further.
Qed.

(** Every binding of an [alter] is an altered old one or an old one. *)
Lemma odict_elem_alter f k d k' v' :
  (k', v') ∈ Py.alter f k d ->
  (k' = k /\ exists v, (k, v) ∈ d /\ v' = f v) \/ (k', v') ∈ d.
Proof.
  induction d as [|[k1 v1] d IH]; simpl.
  - intros H. now apply not_elem_of_nil in H.
  - destruct (decide (k = k1)) as [<- | Hne]; intros H;
      apply elem_of_cons in H as [H | H].
    + inversion H; subst. left. split; [reflexivity|].
      exists v1. split; [apply list_elem_of_here | reflexivity].
    + right. now apply list_elem_of_further.
    + right. rewrite H. apply list_elem_of_here.
    + destruct (IH H) as [(-> & v & Hv & ->) | ?].
      * left. split; [reflexivity|]. exists v.
        split; [now apply list_elem_of_further | reflexivity].
      * right. now apply list_elem_of_further.
Qed.

End Odict.

(** ** Fusion *)

Section Fusion.

Lemma add_vector_lookup_ne d r k :
  vkey r <> k -> Py.lookup k (add_vector d r) = Py.lookup k d.
Proof.
  intros Hne. unfold add_vector. fold (vkey r).
  destruct (truthy (vkey r)); [|reflexivity].
  now apply odict_lookup_set_ne.
Qed.

Lemma fold_add_vector_other l d k :
  (forall r, r ∈ l -> vkey r <> k) ->
  Py.lookup k (fold_left add_vector l d) = Py.lookup k d.
Proof.
  revert d. induction l as [|r l IH]; intros d Hl; simpl; [reflexivity|].
  rewrite IH.
  - apply add_vector_lookup_ne, Hl, list_elem_of_here.
  - intros r' Hr'. apply Hl. now apply list_elem_of_further.
Qed.

Lemma add_vector_lookup_eq d r :
  truthy (vkey r) = true ->
  Py.lookup (vkey r) (add_vector d r) = Some (vector_entry r).
Proof.
  intros Ht. unfold add_vector. fold (vkey r). rewrite Ht.
  apply odict_lookup_set_eq.
Qed.

(** The last vector hit carrying a key owns the entry of that key. *)
Lemma fold_add_vector_last l1 r l2 d :
  truthy (vkey r) = true ->
  (forall r', r' ∈ l2 -> vkey r' <> vkey r) ->
  Py.lookup (vkey r) (fold_left add_vector (l1 ++ r :: l2) d)
  = Some (vector_entry r).
Proof.
  intros Ht Hl2. rewrite fold_left_app. simpl.
  rewrite fold_add_vector_other by assumption.
  now apply add_vector_lookup_eq.
Qed.

Lemma add_bm25_lookup_ne d b k :
  bkey b <> k -> Py.lookup k (add_bm25 d b) = Py.lookup k d.
Proof.
  intros Hne. unfold add_bm25. fold (bkey b).
  destruct (truthy (bkey b)); [|reflexivity].
  destruct (Py.lookup (bkey b) d).
  - now apply odict_lookup_alter_ne.
  - rewrite odict_lookup_app. destruct (Py.lookup k d); [reflexivity|].
    simpl. destruct (decide (k = bkey b)); congruence.
Qed.

Lemma fold_add_bm25_other l d k :
  (forall b, b ∈ l -> bkey b <> k) ->
  Py.lookup k (fold_left add_bm25 l d) = Py.lookup k d.
Proof.
  revert d. induction l as [|b l IH]; intros d Hl; simpl; [reflexivity|].
  rewrite IH.
  - apply add_bm25_lookup_ne, Hl, list_elem_of_here.
  - intros b' Hb'. apply Hl. now apply list_elem_of_further.
Qed.

Lemma add_bm25_keep d b k c :
  Py.lookup k d = Some c ->
  exists c',
    Py.lookup k (add_bm25 d b) = Some c' /\
    c_content c' = c_content c /\
    c_metadata c' = c_metadata c /\
    c_vector_score c' = c_vector_score c.
Proof.
  intros Hc. destruct (decide (bkey b = k)) as [Heq | Hne].
  - unfold add_bm25. fold (bkey b). rewrite Heq.
    destruct (truthy k); [|eauto]. rewrite Hc.
    exists (set_bm25 b c). rewrite odict_lookup_alter_eq, Hc. now simpl.
  - rewrite add_bm25_lookup_ne by assumption. eauto.
Qed.

(** An entry that exists before the second loop keeps its content, its
    metadata and its vector score through it. *)
Lemma fold_add_bm25_keep l d k c :
  Py.lookup k d = Some c ->
  exists c',
    Py.lookup k (fold_left add_bm25 l d) = Some c' /\
    c_content c' = c_content c /\
    c_metadata c' = c_metadata c /\
    c_vector_score c' = c_vector_score c.
Proof.
  revert d c. induction l as [|b l IH]; intros d c Hc; simpl; [eauto|].
  destruct (add_bm25_keep d b k c Hc) as (c1 & H1 & Hc1 & Hm1 & Hs1).
  destruct (IH _ _ H1) as (c' & H' & Hc' & Hm' & Hs').
  exists c'. repeat split; congruence.
Qed.

Lemma add_bm25_lookup_new d b :
  truthy (bkey b) = true ->
  Py.lookup (bkey b) d = None ->
  Py.lookup (bkey b) (add_bm25 d b) = Some (bm25_entry b).
Proof.
  intros Ht Hd. unfold add_bm25. fold (bkey b). rewrite Ht, Hd.
  rewrite odict_lookup_app, Hd. simpl.
  now destruct (decide (bkey b = bkey b)).
Qed.

(** A key carried by exactly one lexical hit and by no earlier entry gets
    that hit's entry. *)
Lemma fold_add_bm25_only l1 b l2 d :
  truthy (bkey b) = true ->
  Py.lookup (bkey b) d = None ->
  (forall b', b' ∈ l1 -> bkey b' <> bkey b) ->
  (forall b', b' ∈ l2 -> bkey b' <> bkey b) ->
  Py.lookup (bkey b) (fold_left add_bm25 (l1 ++ b :: l2) d)
  = Some (bm25_entry b).
Proof.
  intros Ht Hd H1 H2. rewrite fold_left_app. simpl.
  rewrite fold_add_bm25_other by assumption.
  apply add_bm25_lookup_new; [assumption|].
  now rewrite fold_add_bm25_other.
Qed.

Lemma fold_add_vector_provenance VR BR l d :
  (forall v, v ∈ l -> v ∈ VR) ->
  (forall k c, (k, c) ∈ d -> provenance VR BR k c) ->
  forall k c, (k, c) ∈ fold_left add_vector l d -> provenance VR BR k c.
Proof.
  revert d. induction l as [|r l IH]; intros d Hl Hd; simpl; [assumption|].
  apply IH.
  - intros v Hv. apply Hl. now apply list_elem_of_further.
  - intros k c. unfold add_vector. fold (vkey r).
    destruct (truthy (vkey r)) eqn:Ht; [|apply Hd].
    intros H. apply odict_elem_set in H as [[-> ->] | H]; [|now apply Hd].
    split; [assumption|]. left. exists r.
    split; [apply Hl, list_elem_of_here|]. simpl. repeat split. now left.
Qed.

Lemma set_bm25_provenance VR BR b k c :
  b ∈ BR -> bkey b = k ->
  provenance VR BR k c -> provenance VR BR k (set_bm25 b c).
Proof.
  intros Hb Hk [Ht [Hv | Hl]]; (split; [assumption|]).
  - left. destruct Hv as (v & Hv & Hkv & Hc & Hm & Hs & _).
    exists v. simpl. repeat split; try assumption. right. eauto.
  - right. destruct Hl as (b0 & Hb0 & Hk0 & Hc & Hm & Hs & _).
    exists b0. simpl. repeat split; try assumption. eauto.
Qed.

Lemma fold_add_bm25_provenance VR BR l d :
  (forall b, b ∈ l -> b ∈ BR) ->
  (forall k c, (k, c) ∈ d -> provenance VR BR k c) ->
  forall k c, (k, c) ∈ fold_left add_bm25 l d -> provenance VR BR k c.
Proof.
  revert d. induction l as [|b l IH]; intros d Hl Hd; simpl; [assumption|].
  assert (Hb : b ∈ BR) by apply Hl, list_elem_of_here.
  apply IH.
  - intros b' Hb'. apply Hl. now apply list_elem_of_further.
  - intros k c. unfold add_bm25. fold (bkey b).
    destruct (truthy (bkey b)) eqn:Ht; [|apply Hd].
    destruct (Py.lookup (bkey b) d) as [c0|] eqn:Hlk; intros H.
    + apply odict_elem_alter in H as [(-> & v & Hv & ->) | H];
        [|now apply Hd].
      apply set_bm25_provenance; auto.
    + apply elem_of_app in H as [H | H]; [now apply Hd|].
      apply list_elem_of_singleton in H. inversion H; subst.
      split; [assumption|]. right. exists b. simpl. repeat split; eauto.
Qed.

(** Every entry of the merge dictionary has a truthy key and comes from a
    hit of one of the branches. *)
Lemma combined_results_provenance VR BR k c :
  (k, c) ∈ combined_results VR BR -> provenance VR BR k c.
Proof.
  unfold combined_results. apply fold_add_bm25_provenance; [auto|].
  apply fold_add_vector_provenance; [auto|].
  intros k' c' H. now apply not_elem_of_nil in H.
Qed.

(** Every returned result is the materialisation of an entry. *)
Lemma final_results_elem e VR BR r :
  r ∈ final_results e VR BR <->
  exists k c, (k, c) ∈ combined_results VR BR /\ r = make_result e (k, c).
Proof.
  unfold final_results. rewrite sort_desc_elem.
  change (map (make_result e) (combined_results VR BR))
    with (make_result e <$> combined_results VR BR).
  rewrite list_elem_of_fmap. split.
  - intros [[k c] [-> H]]. eauto.
  - intros (k & c & H & ->). eauto.
Qed.

Lemma final_results_of_lookup e VR BR k c :
  Py.lookup k (combined_results VR BR) = Some c ->
  exists i : nat, final_results e VR BR !! i = Some (make_result e (k, c)).
Proof.
  intros H. apply list_elem_of_lookup_1, final_results_elem.
  exists k, c. split; [now apply odict_lookup_elem | reflexivity].
Qed.

End Fusion.

(** ** Claims on the merge *)

Lemma doc_id_of_empty_url (m : Metadata) :
  m !! "url" = Some (VStr "") -> truthy (doc_id_of m) = false.
Proof. intros H. unfold doc_id_of, dict_get. now rewrite H. Qed.

Lemma doc_id_of_no_url (m : Metadata) :
  m !! "url" = None -> doc_id_of m = dict_get m "id" (VStr "").
Proof. intros H. unfold doc_id_of, dict_get at 1. now rewrite H. Qed.

(** C9: a branch result whose metadata maps ['url'] to the empty string is
    skipped by the merge whatever its ['id'] is: the fused list is the one
    obtained without that result.  The ['id'] is read only when the ['url']
    key is absent. *)
Theorem empty_url_result_is_dropped (e : HybridSearchEngine) :
  (forall (l1 l2 : list VectorHit) (r : VectorHit) (BR : list BM25Hit),
      vh_metadata r !! "url" = Some (VStr "") ->
      final_results e (l1 ++ r :: l2) BR = final_results e (l1 ++ l2) BR) /\
  (forall (VR : list VectorHit) (l1 l2 : list BM25Hit) (b : BM25Hit),
      bh_metadata b !! "url" = Some (VStr "") ->
      final_results e VR (l1 ++ b :: l2) = final_results e VR (l1 ++ l2)) /\
  (forall m : Metadata,
      m !! "url" = None -> doc_id_of m = dict_get m "id" (VStr "")).
Proof.
  split; [|split].
  - intros l1 l2 r BR H. unfold final_results, combined_results.
    rewrite !fold_left_app. simpl. unfold add_vector at 2.
    now rewrite (doc_id_of_empty_url _ H).
  - intros VR l1 l2 b H. unfold final_results, combined_results.
    rewrite !fold_left_app. simpl. unfold add_bm25 at 2.
    now rewrite (doc_id_of_empty_url _ H).
  - apply doc_id_of_no_url.
Qed.

(** A vector hit with [url = ''] and [id = 'x'] leaves the fused list
    empty. *)
Lemma empty_url_result_is_dropped_witness :
  vh_metadata Demo.hit_empty_url !! "url" = Some (VStr "") /\
  vh_metadata Demo.hit_empty_url !! "id" = Some (VStr "x") /\
  final_results Demo.fresh ([] ++ Demo.hit_empty_url :: []) [] = [].
Proof.
  split; [reflexivity|]. split; [reflexivity|].
  destruct (empty_url_result_is_dropped Demo.fresh) as (Hv & _ & _).
  rewrite (Hv [] [] Demo.hit_empty_url []); reflexivity.
Defined.

(** C2 as stated fails: the only candidate of the vector branch carries the
    non-empty id ['x'], the lexical branch is empty, and the hybrid result
    of size 5 does not contain it. *)
Lemma fusion_completeness_counterexample :
  (exists m : Metadata,
      collection_query Demo.store_empty_url
        (QueryEnhancer.enhance_query "setup") (5 * 2) = Some (["x"], [m], [0%Q]) /\
      m !! "id" = Some (VStr "x")) /\
  search Demo.store_empty_url Demo.fresh "setup" 5 "hybrid"
  = Returned (Demo.fresh, []).
Proof.
  split; [eexists; split; reflexivity|]. vm_compute. reflexivity.
Qed.

(** C2, amended: the stable identifier of a result is its ['url'] when that
    key is present and its ['id'] otherwise, and it must be truthy.  With
    the lexical index available, [hybrid_search] returns the first
    [n_results] entries of the fused list, in which
    - the last vector hit carrying an identifier appears with its own
      content (in display form), metadata and vector score, also when
      lexical hits carry the same identifier, and with a BM25 score of
      exactly 0 when none does;
    - a lexical hit that is the only one carrying its identifier, which no
      vector hit carries, appears with its own content, metadata and BM25
      score and a vector score of exactly 0. *)
Theorem fusion_completeness (store : Store) (e e' : HybridSearchEngine)
        (query : string) (n_results : Z) :
  _initialize_bm25 store e = Returned e' ->
  let VR := vector_search store (QueryEnhancer.enhance_query query) (n_results * 2) in
  let BR := bm25_ranked store e' (QueryEnhancer.enhance_query query) (n_results * 2) in
  let fused := final_results e' VR BR in
  hybrid_search store e query n_results = Returned (e', Py.slice n_results fused) /\
  (forall (i : nat) sr,
      fused !! i = Some sr -> Z.of_nat i < n_results ->
      Py.slice n_results fused !! i = Some sr) /\
  (forall l1 r l2,
      VR = l1 ++ r :: l2 ->
      truthy (vkey r) = true ->
      (forall r', r' ∈ l2 -> vkey r' <> vkey r) ->
      exists (i : nat) sr,
        fused !! i = Some sr /\
        SearchResult.content sr = display (vh_content r) /\
        SearchResult.metadata sr = vh_metadata r /\
        SearchResult.vector_score sr = vh_vector_score r /\
        ((forall b, b ∈ BR -> bkey b <> vkey r) ->
         SearchResult.bm25_score sr = 0%Q)) /\
  (forall l1 b l2,
      BR = l1 ++ b :: l2 ->
      truthy (bkey b) = true ->
      (forall b', b' ∈ l1 -> bkey b' <> bkey b) ->
      (forall b', b' ∈ l2 -> bkey b' <> bkey b) ->
      (forall r, r ∈ VR -> vkey r <> bkey b) ->
      exists (i : nat) sr,
        fused !! i = Some sr /\
        SearchResult.content sr = display (bh_content b) /\
        SearchResult.metadata sr = bh_metadata b /\
        SearchResult.vector_score sr = 0%Q /\
        SearchResult.bm25_score sr = bh_bm25_score b).
Proof.
  intros Hinit VR BR fused. split; [|split; [|split]].
  - unfold hybrid_search. rewrite bm25_search_init, Hinit. reflexivity.
  - intros i sr Hsr Hi. now rewrite slice_lookup.
  - intros l1 r l2 HVR Ht Hl2.
    pose proof (fold_add_vector_last l1 r l2 [] Ht Hl2) as Hv.
    rewrite <- HVR in Hv.
    destruct (fold_add_bm25_keep BR _ _ _ Hv) as (c & Hc & Hcc & Hcm & Hcs).
    destruct (final_results_of_lookup e' VR BR _ _ Hc) as [i Hi].
    exists i, (make_result e' (vkey r, c)). split; [exact Hi|]. simpl.
    rewrite Hcc, Hcm, Hcs. repeat split.
    intros Hb. unfold combined_results in Hc.
    rewrite fold_add_bm25_other in Hc by assumption.
    rewrite Hv in Hc. now inversion Hc.
  - intros l1 b l2 HBR Ht Hl1 Hl2 Hv.
    assert (Hc : Py.lookup (bkey b) (combined_results VR BR)
                 = Some (bm25_entry b)).
    { unfold combined_results. rewrite HBR.
      apply fold_add_bm25_only; try assumption.
      now rewrite fold_add_vector_other. }
    destruct (final_results_of_lookup e' VR BR _ _ Hc) as [i Hi].
    exists i, (make_result e' (bkey b, bm25_entry b)).
    split; [exact Hi|]. simpl. repeat split.
Qed.

(** On the demo corpus, X (vector branch only) and A (lexical branch only)
    are both among the five results, with the other branch's score at 0. *)
Lemma fusion_completeness_witness :
  exists out sx sa,
    hybrid_search Demo.store Demo.fresh "kiosk mode" 5
      = Returned (Demo.built, out) /\
    sx ∈ out /\
    SearchResult.metadata sx = vh_metadata Demo.hit_x /\
    SearchResult.bm25_score sx = 0%Q /\
    sa ∈ out /\
    SearchResult.metadata sa = bh_metadata Demo.lex_a /\
    SearchResult.vector_score sa = 0%Q.
Proof.
  pose proof (fusion_completeness Demo.store Demo.fresh Demo.built
                "kiosk mode" 5 eq_refl) as H.
  cbv zeta in H. destruct H as (H1 & H2 & H3 & H4).
  assert (EV : vector_search Demo.store
                 (QueryEnhancer.enhance_query "kiosk mode") (5 * 2)
               = [Demo.hit_b; Demo.hit_x]) by (vm_compute; reflexivity).
  assert (EB : bm25_ranked Demo.store Demo.built
                 (QueryEnhancer.enhance_query "kiosk mode") (5 * 2)
               = [Demo.lex_a; Demo.lex_c]) by (vm_compute; reflexivity).
  rewrite EV, EB in *.
  assert (EL : length (final_results Demo.built [Demo.hit_b; Demo.hit_x]
                         [Demo.lex_a; Demo.lex_c]) = 4%nat)
    by (vm_compute; reflexivity).
  destruct (H3 [Demo.hit_b] Demo.hit_x []) as (i & sx & Hi & _ & Hm & _ & Hb).
  { reflexivity. }
  { reflexivity. }
  { intros r' Hr'. inversion Hr'. }
  destruct (H4 [] Demo.lex_a [Demo.lex_c]) as (j & sa & Hj & _ & Hma & Hva & _).
  { reflexivity. }
  { reflexivity. }
  { intros b' Hb'. inversion Hb'. }
  { intros b' Hb'. apply list_elem_of_singleton in Hb'. subst b'.
    intros E. vm_compute in E. discriminate E. }
  { intros r Hr. apply elem_of_cons in Hr as [-> | Hr];
      [|apply list_elem_of_singleton in Hr; subst r];
      intros E; vm_compute in E; discriminate E. }
  eexists _, sx, sa. split; [exact H1|].
  split.
  { apply list_elem_of_lookup_2 with i. apply H2; [exact Hi|].
    apply lookup_lt_Some in Hi. lia. }
  split; [exact Hm|]. split.
  { apply Hb. intros b Hb'. apply elem_of_cons in Hb' as [-> | Hb'];
      [|apply list_elem_of_singleton in Hb'; subst b];
      intros E; vm_compute in E; discriminate E. }
  split.
  { apply list_elem_of_lookup_2 with j. apply H2; [exact Hj|].
    apply lookup_lt_Some in Hj. lia. }
  split; assumption.
Defined.

(** ** The vector branch *)

Section Vector.

Variable store : Store.

Lemma vector_hits_cands i l hits :
  vector_hits i l = Some hits -> Forall2 cand_hit l hits.
Proof.
  revert i hits. induction l as [|[[doc m] d] l IH]; intros i hits H; simpl in H.
  - inversion H. constructor.
  - destruct (Qeq_bool (1 + d) 0); [discriminate|].
    destruct (vector_hits (i + 1) l) as [rest|] eqn:Hr; [|discriminate].
    inversion H; subst. constructor; [|eauto]. now repeat split.
Qed.

Lemma vector_hits_total i l :
  Forall (fun c : string * Metadata * Q => ~ (1 + snd c == 0)%Q) l ->
  exists hits, vector_hits i l = Some hits.
Proof.
  intros Hl. revert i. induction Hl as [|[[doc m] d] l Hd Hl IH]; intros i; simpl.
  - eauto.
  - destruct (Qeq_bool (1 + d) 0) eqn:E.
    + apply Qeq_bool_iff in E. now elim Hd.
    + destruct (IH (i + 1)) as [rest ->]. eauto.
Qed.

Lemma zip3_distances {A B C} (P : C -> Prop) (a : list A) (b : list B)
      (c : list C) :
  Forall P c -> Forall (fun x : A * B * C => P (snd x)) (Py.zip3 a b c).
Proof.
  intros Hc. revert a b. induction Hc as [|z c Hz Hc IH]; intros a b.
  - destruct a, b; constructor.
  - destruct a as [|x a], b as [|y b]; simpl; try constructor; auto.
Qed.

Lemma vector_search_cands query n documents metadatas distances :
  collection_query store query n = Some (documents, metadatas, distances) ->
  vector_search store query n = [] \/
  Forall2 cand_hit (Py.zip3 documents metadatas distances)
          (vector_search store query n).
Proof.
  intros Hq. unfold vector_search. rewrite Hq.
  destruct (vector_hits 0 _) as [hits|] eqn:Hh; [right | now left].
  eapply vector_hits_cands; eauto.
Qed.

Lemma vector_search_raises query n :
  collection_query store query n = None -> vector_search store query n = [].
Proof. intros Hq. unfold vector_search. now rewrite Hq. Qed.

(** Every recorded vector score is [1 / (1 + d)] for a distance [d] the
    store returned to this query. *)
Lemma vector_search_scores query n :
  Forall (fun h => exists documents metadatas distances d,
              collection_query store query n
                = Some (documents, metadatas, distances) /\
              d ∈ distances /\
              vh_vector_score h = (1 / (1 + d))%Q)
         (vector_search store query n).
Proof.
  destruct (collection_query store query n) as [[[docs metas] dists]|] eqn:Hq.
  - destruct (vector_search_cands _ _ _ _ _ Hq) as [-> | H]; [constructor|].
    pose proof (zip3_distances (fun d => d ∈ dists) docs metas dists) as Hz.
    rewrite Forall_forall in Hz. specialize (Hz (fun d Hd => Hd)).
    induction H as [|c h cs hs Hch H IH]; [constructor|].
    inversion Hz; subst. constructor; [|auto].
    exists docs, metas, dists, (snd c). destruct Hch as (_ & _ & Hs). auto.
  - rewrite vector_search_raises by assumption. constructor.
Qed.

End Vector.

Lemma Qinv_succ_bounds (d : Q) :
  (0 <= d)%Q -> (0 <= 1 / (1 + d) /\ 1 / (1 + d) <= 1)%Q.
Proof.
  intros Hd. assert (H1 : (0 < 1 + d)%Q).
  { apply Qlt_le_trans with 1%Q; [reflexivity|].
    rewrite <- (Qplus_0_r 1) at 1. apply Qplus_le_r. exact Hd. }
  split.
  - apply Qle_shift_div_l; [exact H1|]. rewrite Qmult_0_l. discriminate.
  - apply Qle_shift_div_r; [exact H1|]. rewrite Qmult_1_l.
    rewrite <- (Qplus_0_r 1) at 1. apply Qplus_le_r. exact Hd.
Qed.

(** A vector hit that is the last one with its key, a key no lexical hit
    carries, is materialised from its own entry. *)
Lemma vector_only_result (e : HybridSearchEngine) (VR : list VectorHit)
      (BR : list BM25Hit) l1 r l2 :
  VR = l1 ++ r :: l2 ->
  truthy (vkey r) = true ->
  (forall r', r' ∈ l2 -> vkey r' <> vkey r) ->
  (forall b, b ∈ BR -> bkey b <> vkey r) ->
  exists i : nat,
    final_results e VR BR !! i = Some (make_result e (vkey r, vector_entry r)).
Proof.
  intros -> Ht Hl2 Hb. apply final_results_of_lookup.
  unfold combined_results. rewrite fold_add_bm25_other by assumption.
  now apply fold_add_vector_last.
Qed.

Lemma initialize_bm25_weights (store : Store) (e e' : HybridSearchEngine) :
  _initialize_bm25 store e = Returned e' ->
  vector_weight e' = vector_weight e /\ bm25_weight e' = bm25_weight e.
Proof.
  unfold _initialize_bm25. destruct (_bm25_initialized e).
  { intros [= ->]. auto. }
  destruct (collection_get store) as [msg | [documents metadatas]];
    [discriminate|].
  destruct documents as [|d documents].
  { intros [= ->]. auto. }
  destruct (bm25_okapi_raises store _); [discriminate|].
  intros [= <-]. auto.
Qed.

(** What [vector_search] records for the candidates of the store, and how a
    candidate at distance 0 is fused. *)
Lemma vector_candidates_fused (store : Store) (query : string)
        (n : Z) documents metadatas distances :
  collection_query store query n = Some (documents, metadatas, distances) ->
  let cands := Py.zip3 documents metadatas distances in
  let VR := vector_search store query n in
  Forall (fun h => exists c, c ∈ cands /\ cand_hit c h) VR /\
  (Forall (fun d => ~ (1 + d == 0)%Q) distances -> Forall2 cand_hit cands VR) /\
  (forall (e : HybridSearchEngine) (BR : list BM25Hit) (j : nat) doc m d,
      Forall (fun d => ~ (1 + d == 0)%Q) distances ->
      cands !! j = Some (doc, m, d) ->
      (d == 0)%Q ->
      truthy (doc_id_of m) = true ->
      (forall (j' : nat) c', (j < j')%nat -> cands !! j' = Some c' ->
                             doc_id_of (snd (fst c')) <> doc_id_of m) ->
      (forall b, b ∈ BR -> bkey b <> doc_id_of m) ->
      exists (i : nat) sr,
        final_results e VR BR !! i = Some sr /\
        SearchResult.metadata sr = m /\
        (SearchResult.vector_score sr == 1)%Q /\
        SearchResult.bm25_score sr = 0%Q /\
        (SearchResult.hybrid_score sr == vector_weight e * 1)%Q).
Proof.
  intros Hq cands VR.
  assert (Htot : Forall (fun d => ~ (1 + d == 0)%Q) distances ->
                 Forall2 cand_hit cands VR).
  { intros Hd. subst VR. unfold vector_search. rewrite Hq.
    destruct (vector_hits_total 0 cands) as [hits Hh].
    { now apply (zip3_distances (fun d => ~ (1 + d == 0)%Q)). }
    fold cands. rewrite Hh. eapply vector_hits_cands; eauto. }
  split; [|split; [exact Htot|]].
  - destruct (vector_search_cands store _ _ _ _ _ Hq) as [E | H].
    + subst VR. rewrite E. constructor.
    + fold cands VR in H. clear Htot. clearbody cands VR.
      induction H as [|c h cs hs Hch H IH]; [constructor|].
      constructor.
      * exists c. split; [apply list_elem_of_here | exact Hch].
      * eapply Forall_impl; [exact IH|]. intros h' (c' & Hc' & Hh').
        exists c'. split; [now apply list_elem_of_further | exact Hh'].
  - intros e BR j doc m d Hd Hj Hd0 Ht Hlast Hb.
    specialize (Htot Hd).
    destruct (Forall2_lookup_l _ _ _ _ _ Htot Hj) as (r & Hr & Hc & Hm & Hs).
    simpl in Hc, Hm, Hs.
    assert (Hk : vkey r = doc_id_of m) by (unfold vkey; now rewrite Hm).
    destruct (vector_only_result e VR BR (take j VR) r (drop (S j) VR))
      as [i Hi].
    + symmetry. now apply take_drop_middle.
    + now rewrite Hk.
    + intros r' Hr'. apply list_elem_of_lookup_1 in Hr' as [j' Hj'].
      rewrite lookup_drop in Hj'.
      destruct (Forall2_lookup_r _ _ _ _ _ Htot Hj') as (c' & Hc' & _ & Hm' & _).
      rewrite Hk. unfold vkey. rewrite Hm'.
      apply (Hlast (S j + j')%nat); [lia | exact Hc'].
    + now rewrite Hk.
    + exists i, (make_result e (vkey r, vector_entry r)).
      split; [exact Hi|]. simpl. split; [exact Hm|].
      assert (Hone : (vh_vector_score r == 1)%Q).
      { rewrite Hs, Hd0. reflexivity. }
      split; [exact Hone|]. split; [reflexivity|].
      rewrite Hone. ring.
Qed.

(** C6 as stated fails: the only candidate of the vector store is at
    distance 0 and its hit is recorded with the score [1 / (1 + 0)], the
    lexical branch returns nothing, and yet the hybrid search of size 5
    returns no result for it: its ['url'] is the empty string. *)
Lemma vector_score_counterexample :
  (exists m : Metadata,
      collection_query Demo.store_empty_url
        (QueryEnhancer.enhance_query "setup") (5 * 2)
        = Some (["x"], [m], [0%Q]) /\
      vector_search Demo.store_empty_url
        (QueryEnhancer.enhance_query "setup") (5 * 2)
        = [ {| vh_content := "x"; vh_metadata := m;
               vh_vector_score := 1 / (1 + 0); vh_rank := 1 |} ]) /\
  bm25_search Demo.store_empty_url Demo.fresh
    (QueryEnhancer.enhance_query "setup") (5 * 2)
    = Returned (Demo.fresh, []) /\
  search Demo.store_empty_url Demo.fresh "setup" 5 "hybrid"
    = Returned (Demo.fresh, []).
Proof.
  split; [eexists; split; vm_compute; reflexivity|].
  split; vm_compute; reflexivity.
Qed.

(** C6, amended: when the store answers a query and none of the returned
    distances is -1, [vector_search] records for every candidate, in order,
    the score [1 / (1 + d)] of its distance [d], and vector mode returns
    these scores.  In a hybrid search whose lexical index is available, a
    candidate at distance 0 whose identifier (its ['url'], or its ['id'] when
    there is no ['url'] key) is truthy, carried by no later candidate and by
    no lexical hit, is fused into a result with vector score 1, BM25 score 0
    and hybrid score [vector_weight * 1], which is returned when its position
    in the fused list is below [k]. *)
Theorem vector_score_of_candidates (store : Store)
        (e e' : HybridSearchEngine) (query : string) (k : Z) :
  _initialize_bm25 store e = Returned e' ->
  (forall q n documents metadatas distances,
      collection_query store q n = Some (documents, metadatas, distances) ->
      Forall (fun d => ~ (1 + d == 0)%Q) distances ->
      Forall2 cand_hit (Py.zip3 documents metadatas distances)
              (vector_search store q n) /\
      exists out,
        search store e q n "vector" = Returned (e, out) /\
        Forall2 (fun c r =>
                   SearchResult.vector_score r = (1 / (1 + snd c))%Q /\
                   SearchResult.metadata r = snd (fst c))
                (Py.zip3 documents metadatas distances) out) /\
  (forall documents metadatas distances,
      collection_query store (QueryEnhancer.enhance_query query) (k * 2)
        = Some (documents, metadatas, distances) ->
      Forall (fun d => ~ (1 + d == 0)%Q) distances ->
      let cands := Py.zip3 documents metadatas distances in
      let VR := vector_search store (QueryEnhancer.enhance_query query) (k * 2) in
      let BR := bm25_ranked store e' (QueryEnhancer.enhance_query query)
                            (k * 2) in
      exists out,
        search store e query k "hybrid" = Returned (e', out) /\
        out = Py.slice k (final_results e' VR BR) /\
        forall (j : nat) doc m d,
          cands !! j = Some (doc, m, d) ->
          (d == 0)%Q ->
          truthy (doc_id_of m) = true ->
          (forall (j' : nat) c', (j < j')%nat -> cands !! j' = Some c' ->
                                 doc_id_of (snd (fst c')) <> doc_id_of m) ->
          (forall b, b ∈ BR -> bkey b <> doc_id_of m) ->
          exists (i : nat) sr,
            final_results e' VR BR !! i = Some sr /\
            (Z.of_nat i < k -> out !! i = Some sr) /\
            SearchResult.metadata sr = m /\
            (SearchResult.vector_score sr == 1)%Q /\
            SearchResult.bm25_score sr = 0%Q /\
            (SearchResult.hybrid_score sr == vector_weight e * 1)%Q).
Proof.
  intros Hinit. split.
  - intros q n documents metadatas distances Hq Hd.
    pose proof (vector_candidates_fused store q n _ _ _ Hq) as H.
    cbv zeta in H. destruct H as (_ & Htot & _). specialize (Htot Hd).
    split; [exact Htot|]. eexists. split; [reflexivity|].
    induction Htot as [|c h cs hs (_ & Hm & Hs) Htot IH]; simpl;
      constructor; [|exact IH].
    simpl. split; [exact Hs | exact Hm].
  - intros documents metadatas distances Hq Hd cands VR BR.
    eexists. split; [|split; [reflexivity|]].
    { unfold search, hybrid_search. simpl.
      rewrite bm25_search_init, Hinit. reflexivity. }
    intros j doc m d Hj Hd0 Ht Hlast Hb.
    pose proof (vector_candidates_fused store _ _ _ _ _ Hq) as H.
    cbv zeta in H. destruct H as (_ & _ & H).
    destruct (H e' BR j doc m d Hd Hj Hd0 Ht Hlast Hb)
      as (i & sr & Hi & Hm & Hvs & Hbs & Hhs).
    exists i, sr. split; [exact Hi|].
    split; [intros Hik; now rewrite slice_lookup|].
    split; [exact Hm|]. split; [exact Hvs|]. split; [exact Hbs|].
    destruct (initialize_bm25_weights _ _ _ Hinit) as [<- _]. exact Hhs.
Qed.

(** The hybrid search of the demo engine for "kiosk mode", size 5, returns
    candidate X, at distance 0 and unknown to the lexical branch, with vector
    score 1 and hybrid score [0.7 * 1]. *)
Lemma vector_score_of_candidates_witness :
  exists out sr,
    search Demo.store Demo.fresh "kiosk mode" 5 "hybrid"
      = Returned (Demo.built, out) /\
    sr ∈ out /\
    SearchResult.metadata sr = Demo.meta "https://kb/x" "X" /\
    (SearchResult.vector_score sr == 1)%Q /\
    SearchResult.bm25_score sr = 0%Q /\
    (SearchResult.hybrid_score sr == (7 # 10) * 1)%Q.
Proof.
  destruct (vector_score_of_candidates Demo.store Demo.fresh Demo.built
              "kiosk mode" 5 eq_refl) as [_ H].
  specialize (H _ _ _ eq_refl).
  assert (Hd : Forall (fun d => ~ (1 + d == 0)%Q) [1%Q; 0%Q]).
  { repeat constructor; intros E; vm_compute in E; discriminate E. }
  specialize (H Hd). cbv zeta in H. destruct H as (out & Hs & Ho & H).
  assert (EB : bm25_ranked Demo.store Demo.built
                 (QueryEnhancer.enhance_query "kiosk mode") (5 * 2)
               = [Demo.lex_a; Demo.lex_c]) by (vm_compute; reflexivity).
  assert (EL : length (final_results Demo.built
                         (vector_search Demo.store
                            (QueryEnhancer.enhance_query "kiosk mode") (5 * 2))
                         (bm25_ranked Demo.store Demo.built
                            (QueryEnhancer.enhance_query "kiosk mode") (5 * 2)))
               = 4%nat) by (vm_compute; reflexivity).
  destruct (H 1%nat "x" (Demo.meta "https://kb/x" "X") 0%Q)
    as (i & sr & Hi & Hout & Hm & Hvs & Hbs & Hhs).
  - reflexivity.
  - reflexivity.
  - reflexivity.
  - intros [|[|j']] c' Hj Hc; try lia. simpl in Hc. discriminate Hc.
  - rewrite EB. intros b Hb. apply elem_of_cons in Hb as [-> | Hb];
      [|apply list_elem_of_singleton in Hb; subst b];
      intros E; vm_compute in E; discriminate E.
  - exists out, sr. split; [exact Hs|]. split.
    { apply list_elem_of_lookup_2 with i. apply Hout.
      apply lookup_lt_Some in Hi. rewrite EL in Hi. lia. }
    repeat split; assumption.
Defined.

(** C7 as stated fails: on a fresh engine whose store is down, the query of
    the vector branch raises and is absorbed, but the lazy build of the
    lexical index re-raises the store's error to the caller. *)
Lemma vector_failure_counterexample :
  collection_query Demo.store_down
    (QueryEnhancer.enhance_query "kiosk mode") (5 * 2) = None /\
  search Demo.store_down Demo.fresh "kiosk mode" 5 "hybrid"
  = Raised "connection refused".
Proof. split; vm_compute; reflexivity. Qed.

(** C7, amended: when the query of the vector store raises during a hybrid
    search, the vector branch counts as empty.  If the lexical index is
    built, or its lazy build returns, the call returns the fused list of the
    lexical hits alone and every result has a vector score of exactly 0; if
    the lazy build raises, that exception reaches the caller. *)
Theorem vector_failure_degrades_to_lexical (store : Store) (e : HybridSearchEngine)
        (query : string) (n_results : Z) :
  collection_query store (QueryEnhancer.enhance_query query) (n_results * 2)
  = None ->
  vector_search store (QueryEnhancer.enhance_query query) (n_results * 2) = [] /\
  match _initialize_bm25 store e with
  | Raised msg => hybrid_search store e query n_results = Raised msg
  | Returned e' =>
      let BR := bm25_ranked store e' (QueryEnhancer.enhance_query query)
                            (n_results * 2) in
      exists out,
        hybrid_search store e query n_results = Returned (e', out) /\
        out = Py.slice n_results (final_results e' [] BR) /\
        Forall (fun r =>
                  SearchResult.vector_score r = 0%Q /\
                  exists b b', b ∈ BR /\ b' ∈ BR /\ bkey b' = bkey b /\
                    SearchResult.metadata r = bh_metadata b /\
                    SearchResult.content r = display (bh_content b) /\
                    SearchResult.bm25_score r = bh_bm25_score b')
               out
  end.
Proof.
  intros Hq. pose proof (vector_search_raises store _ _ Hq) as Hv.
  split; [exact Hv|].
  unfold hybrid_search. rewrite Hv, bm25_search_init.
  destruct (_initialize_bm25 store e) as [e'|msg]; [|reflexivity].
  cbv zeta. eexists. split; [reflexivity|]. split; [reflexivity|].
  rewrite Forall_forall. intros r Hr. apply slice_subseteq in Hr.
  apply final_results_elem in Hr as (k & c & Hkc & ->).
  apply combined_results_provenance in Hkc as [_ [Hfv | Hfb]].
  - destruct Hfv as (v & Hv' & _). now apply not_elem_of_nil in Hv'.
  - destruct Hfb as (b & Hb & Hk & Hc & Hm & Hs & b' & Hb' & Hk' & Hs').
    simpl. split; [exact Hs|]. exists b, b'. rewrite Hc, Hm.
    repeat split; try assumption. congruence.
Qed.

(** With the corpus read but the queries of the store raising, the hybrid
    search for "kiosk mode" returns the two lexical matches. *)
Lemma vector_failure_degrades_to_lexical_witness :
  exists out,
    hybrid_search Demo.store_query_down Demo.fresh "kiosk mode" 5
      = Returned (Demo.built, out) /\
    length out = 2%nat /\
    Forall (fun r => SearchResult.vector_score r = 0%Q) out.
Proof.
  pose proof (vector_failure_degrades_to_lexical Demo.store_query_down
                Demo.fresh "kiosk mode" 5 eq_refl) as [_ H].
  change (_initialize_bm25 Demo.store_query_down Demo.fresh)
    with (Returned Demo.built) in H.
  cbv zeta in H. destruct H as (out & Hs & Ho & Hf).
  exists out. split; [exact Hs|]. split.
  - rewrite Ho. vm_compute. reflexivity.
  - eapply Forall_impl; [exact Hf|]. now intros r [H _].
Defined.

(** ** Scores of the returned results *)

Lemma vector_search_bounds (store : Store) (query : string) (n : Z) :
  distances_nonnegative store ->
  Forall (fun h => (0 <= vh_vector_score h /\ vh_vector_score h <= 1)%Q)
         (vector_search store query n).
Proof.
  intros Hd. eapply Forall_impl; [apply vector_search_scores|].
  intros h (docs & metas & dists & d & Hq & Hin & ->).
  apply Qinv_succ_bounds. specialize (Hd _ _ _ _ _ Hq).
  rewrite Forall_forall in Hd. now apply Hd.
Qed.

(** C3 as stated fails in vector mode: with the weights 0.7 and 0.3 the
    result for the candidate at distance 0 has vector score 1, BM25 score 0
    and hybrid score 1, not 0.7. *)
Lemma hybrid_score_formula_counterexample :
  exists out r,
    search Demo.store Demo.fresh "kiosk" 5 "vector"
      = Returned (Demo.fresh, out) /\
    r ∈ out /\
    ~ (SearchResult.hybrid_score r ==
       vector_weight Demo.fresh * SearchResult.vector_score r
       + bm25_weight Demo.fresh * SearchResult.bm25_score r)%Q.
Proof.
  exists (map of_vector_hit [Demo.hit_b; Demo.hit_x]), (of_vector_hit Demo.hit_x).
  split; [vm_compute; reflexivity|].
  split; [simpl; apply list_elem_of_further, list_elem_of_here|].
  intros E. vm_compute in E. discriminate E.
Qed.

(** C3, amended: in hybrid mode every result has
    [hybrid_score = vector_weight * vector_score + bm25_weight * bm25_score]
    for the weights of the engine; in vector mode the hybrid score is the
    vector score and the BM25 score is 0; in bm25 mode the hybrid score is
    the BM25 score and the vector score is 0.  In every mode, when the store
    only returns non-negative distances, the vector score lies in [0, 1]
    and the BM25 score is non-negative. *)
Theorem search_result_scores (store : Store) (e e' : HybridSearchEngine) (query : string)
        (n_results : Z) (search_type : string) (out : list SearchResult.t) :
  search store e query n_results search_type = Returned (e', out) ->
  Forall (fun r =>
            if String.eqb search_type "vector" then
              SearchResult.hybrid_score r = SearchResult.vector_score r /\
              SearchResult.bm25_score r = 0%Q
            else if String.eqb search_type "bm25" then
              SearchResult.hybrid_score r = SearchResult.bm25_score r /\
              SearchResult.vector_score r = 0%Q
            else
              SearchResult.hybrid_score r =
              (vector_weight e * SearchResult.vector_score r
               + bm25_weight e * SearchResult.bm25_score r)%Q) out /\
  (distances_nonnegative store ->
   Forall (fun r =>
             (0 <= SearchResult.vector_score r)%Q /\
             (SearchResult.vector_score r <= 1)%Q /\
             (0 <= SearchResult.bm25_score r)%Q) out).
Proof.
  unfold search.
  destruct (String.eqb search_type "vector").
  { intros [= <- <-]. split.
    - rewrite Forall_forall. intros r Hr.
      apply list_elem_of_In, in_map_iff in Hr as (h & <- & _). now simpl.
    - intros Hd. pose proof (vector_search_bounds store query n_results Hd) as Hb.
      induction Hb as [|h hs [H0 H1] Hb IH]; simpl; constructor; auto.
      simpl. repeat split; auto. apply Qle_refl. }
  destruct (String.eqb search_type "bm25").
  { rewrite bm25_search_init.
    destruct (_initialize_bm25 store e) as [e1|msg]; [|discriminate].
    intros [= <- <-]. split.
    - rewrite Forall_forall. intros r Hr.
      apply list_elem_of_In, in_map_iff in Hr as (h & <- & _). now simpl.
    - intros _. pose proof (bm25_ranked_positive store e1 query n_results) as Hb.
      induction Hb as [|h hs Hh Hb IH]; simpl; constructor; auto.
      simpl. split; [apply Qle_refl|]. split; [discriminate|].
      now apply Qlt_le_weak. }
  unfold hybrid_search. rewrite bm25_search_init.
  destruct (_initialize_bm25 store e) as [e1|msg] eqn:Hinit; [|discriminate].
  destruct (initialize_bm25_weights _ _ _ Hinit) as [Hvw Hbw].
  intros [= <- <-]. split.
  - rewrite Forall_forall. intros r Hr. apply slice_subseteq in Hr.
    apply final_results_elem in Hr as (k & c & _ & ->).
    simpl. now rewrite Hvw, Hbw.
  - intros Hd. rewrite Forall_forall. intros r Hr. apply slice_subseteq in Hr.
    apply final_results_elem in Hr as (k & c & Hkc & ->). simpl.
    pose proof (vector_search_bounds store
                  (QueryEnhancer.enhance_query query) (n_results * 2) Hd) as Hvb.
    pose proof (bm25_ranked_positive store e1
                  (QueryEnhancer.enhance_query query) (n_results * 2)) as Hbp.
    rewrite Forall_forall in Hvb. rewrite Forall_forall in Hbp.
    apply combined_results_provenance in Hkc as [_ [Hfv | Hfb]].
    + destruct Hfv as (v & Hv & _ & _ & _ & -> & Hbs).
      destruct (Hvb v Hv) as [H0 H1]. repeat split; try assumption.
      destruct Hbs as [-> | (b & Hb & _ & ->)]; [apply Qle_refl|].
      apply Qlt_le_weak. now apply Hbp.
    + destruct Hfb as (b & _ & _ & _ & _ & -> & b' & Hb' & _ & ->).
      split; [apply Qle_refl|]. split; [discriminate|].
      apply Qlt_le_weak. now apply Hbp.
Qed.

(** The hybrid search of the demo engine: four results, each with the
    weighted sum as hybrid score and both scores within their bounds. *)
Lemma search_result_scores_witness :
  exists out,
    search Demo.store Demo.fresh "kiosk mode" 5 "hybrid"
      = Returned (Demo.built, out) /\
    length out = 4%nat /\
    Forall (fun r =>
              SearchResult.hybrid_score r =
              ((7 # 10) * SearchResult.vector_score r
               + (3 # 10) * SearchResult.bm25_score r)%Q) out /\
    Forall (fun r =>
              (0 <= SearchResult.vector_score r)%Q /\
              (SearchResult.vector_score r <= 1)%Q /\
              (0 <= SearchResult.bm25_score r)%Q) out.
Proof.
  assert (Hs : exists out, search Demo.store Demo.fresh "kiosk mode" 5 "hybrid"
                           = Returned (Demo.built, out) /\ length out = 4%nat).
  { vm_compute. eexists. split; reflexivity. }
  destruct Hs as (out & Hs & Hl).
  destruct (search_result_scores _ _ _ _ _ _ _ Hs) as [Hf Hb].
  exists out. repeat split; [exact Hs | exact Hl | exact Hf |].
  apply Hb. intros query n documents metadatas distances [= <- <- <-].
  repeat constructor; discriminate.
Defined.

(** ** Content of the lexical results *)

Example reconstruction_normalises :
  reconstruction "Kiosk   MODE lockdown" = "kiosk mode lockdown".
Proof. reflexivity. Qed.





(** ** The search interface *)

(** C1 as stated fails: on the demo engine, [k = 0] returns the empty list,
    [k = -1] returns results, and the unknown mode "fuzzy" returns what
    hybrid mode returns; no call raises. *)
Lemma search_validation_counterexample :
  search Demo.store Demo.built "kiosk mode" 0 "hybrid"
    = Returned (Demo.built, []) /\
  (exists r out,
      search Demo.store Demo.built "kiosk mode" (-1) "hybrid"
        = Returned (Demo.built, r :: out)) /\
  (exists r out,
      search Demo.store Demo.built "kiosk mode" 5 "fuzzy"
        = Returned (Demo.built, r :: out) /\
      search Demo.store Demo.built "kiosk mode" 5 "hybrid"
        = Returned (Demo.built, r :: out)).
Proof.
  split; [vm_compute; reflexivity|]. split.
  - vm_compute. eexists _, _. reflexivity.
  - vm_compute. eexists _, _. split; reflexivity.
Qed.

(** C1, amended: [search] validates neither [k] nor the mode.  A mode other
    than "vector" and "bm25" is served as hybrid mode; on a built lexical
    index every call returns; the only exception a call can raise is the one
    the lazy build of the lexical index re-raises; and with [k = 0], bm25
    and hybrid mode return the empty list. *)
Theorem search_does_not_validate (store : Store) (e : HybridSearchEngine) (query : string)
        (k : Z) (search_type : string) :
  (search_type <> "vector" -> search_type <> "bm25" ->
   search store e query k search_type = hybrid_search store e query k) /\
  (_bm25_initialized e = true ->
   exists out, search store e query k search_type = Returned (e, out)) /\
  (forall msg,
      search store e query k search_type = Raised msg ->
      _bm25_initialized e = false /\ _initialize_bm25 store e = Raised msg) /\
  (k = 0 -> search_type <> "vector" ->
   forall e' out,
     search store e query k search_type = Returned (e', out) -> out = []).
Proof.
  assert (Hraise : forall q n msg,
             bm25_search store e q n = Raised msg ->
             _bm25_initialized e = false /\ _initialize_bm25 store e = Raised msg).
  { intros q n msg. unfold bm25_search.
    destruct (_bm25_initialized e); [discriminate|].
    destruct (_initialize_bm25 store e); [discriminate|].
    intros [= ->]. auto. }
  assert (Hzero : forall e1 q, bm25_ranked store e1 q 0 = []).
  { intros e1 q. unfold bm25_ranked. now destruct (bm25_index e1). }
  split; [|split; [|split]].
  - intros Hv Hb. unfold search.
    apply String.eqb_neq in Hv, Hb. now rewrite Hv, Hb.
  - intros He. unfold search, hybrid_search.
    rewrite !bm25_search_built by assumption.
    destruct (String.eqb search_type "vector"); [eauto|].
    destruct (String.eqb search_type "bm25"); eauto.
  - intros msg. unfold search, hybrid_search.
    destruct (String.eqb search_type "vector"); [discriminate|].
    destruct (String.eqb search_type "bm25").
    + destruct (bm25_search store e query k) as [[e1 br]|msg'] eqn:Hb;
        [discriminate|].
      intros [= ->]. eauto.
    + destruct (bm25_search store e _ (k * 2)) as [[e1 br]|msg'] eqn:Hb;
        [discriminate|].
      intros [= ->]. eauto.
  - intros -> Hv e' out. unfold search, hybrid_search.
    apply String.eqb_neq in Hv. rewrite Hv.
    destruct (String.eqb search_type "bm25").
    + rewrite bm25_search_init.
      destruct (_initialize_bm25 store e) as [e1|msg]; [|discriminate].
      rewrite Hzero. now intros [= _ <-].
    + destruct (bm25_search store e _ (0 * 2)) as [[e1 br]|msg];
        [|discriminate].
      now intros [= _ <-].
Qed.

(** The unknown mode "fuzzy" is served as hybrid mode, and [k = 0] in bm25
    mode gives the empty list. *)
Lemma search_does_not_validate_witness :
  search Demo.store Demo.built "kiosk mode" 5 "fuzzy"
    = hybrid_search Demo.store Demo.built "kiosk mode" 5 /\
  (exists out, search Demo.store Demo.built "kiosk mode" 0 "bm25"
               = Returned (Demo.built, out) /\ out = []).
Proof.
  destruct (search_does_not_validate Demo.store Demo.built "kiosk mode" 5 "fuzzy")
    as (H1 & _).
  destruct (search_does_not_validate Demo.store Demo.built "kiosk mode" 0 "bm25")
    as (_ & H2 & _ & H4).
  split; [apply H1; discriminate|].
  destruct (H2 eq_refl) as [out Hout]. exists out. split; [exact Hout|].
  eapply H4; [reflexivity | discriminate | exact Hout].
Defined.

(** ** The query enhancer *)

Section Enhancer.

Import QueryEnhancer.

Lemma add_word_expansion acc word : add_word acc word = acc ++ expansion word.
Proof.
  unfold add_word, expansion. destruct (tech_synonyms !! word); simpl.
  - now rewrite <- app_assoc.
  - reflexivity.
Qed.

Lemma fold_add_word words acc :
  fold_left add_word words acc = acc ++ flat_map expansion words.
Proof.
  revert acc. induction words as [|w ws IH]; intros acc; simpl.
  - now rewrite app_nil_r.
  - rewrite IH, add_word_expansion. now rewrite <- app_assoc.
Qed.

Lemma words_sublist_expansion words :
  words `sublist_of` flat_map expansion words.
Proof.
  induction words as [|w ws IH]; simpl; [constructor|].
  apply sublist_skip. now apply sublist_inserts_l.
Qed.

End Enhancer.

(** C8: [enhance_query] lower-cases (and strips) the query, applies the five
    replacements of the misspelling table in order, splits the outcome into
    words and joins, with single blanks, each word followed by its synonyms:
    the words keep their relative order.  "andriod mdm setup" yields a query
    that contains "android" and in which "mobile device management" follows
    "mdm"; the empty query yields the empty string. *)
Theorem enhance_query_expands_in_place (query : string) :
  let lowered := PyStr.strip (PyStr.lower query) in
  let corrected :=
    PyStr.replace "managment" "management"
      (PyStr.replace "instalation" "installation"
        (PyStr.replace "configuratin" "configuration"
          (PyStr.replace "winodws" "windows"
            (PyStr.replace "andriod" "android" lowered)))) in
  let words := PyStr.split corrected in
  QueryEnhancer.enhance_query query
    = PyStr.join " " (flat_map expansion words) /\
  words `sublist_of` flat_map expansion words /\
  QueryEnhancer.enhanced_words_of (PyStr.split "android mdm setup")
    = ["android"; "android device"; "mobile device";
       "mdm"; "mobile device management"; "device management";
       "setup"] /\
  QueryEnhancer.enhance_query "andriod mdm setup"
    = "android android device mobile device mdm mobile device management device management setup" /\
  PyStr.contains "android" (QueryEnhancer.enhance_query "andriod mdm setup")
    = true /\
  PyStr.contains "mobile device management"
                 (QueryEnhancer.enhance_query "andriod mdm setup") = true /\
  QueryEnhancer.enhance_query "" = "".
Proof.
  intros lowered corrected words. split; [|split].
  - unfold QueryEnhancer.enhance_query, QueryEnhancer.enhanced_words_of.
    now rewrite fold_add_word.
  - apply words_sublist_expansion.
  - repeat split; vm_compute; reflexivity.
Qed.

Example enhance_demo :
  QueryEnhancer.enhance_query "  Andriod MDM   setup " =
  "android android device mobile device mdm mobile device management device management setup".
Proof. vm_compute. reflexivity. Qed.

Example extract_keywords_demo :
  QueryEnhancer.extract_keywords "How to  set UP the Kiosk mode on an MDM"
  = ["set"; "kiosk"; "mode"; "mdm"].
Proof. vm_compute. reflexivity. Qed.

(** * Further properties *)

(** ** Strings: case, tokens, and the split/join round trip *)

Section PyStrFacts.

Import PyStr.

Lemma chars_str l : chars (str l) = l.
Proof. apply list_ascii_of_string_of_list_ascii. Qed.

Lemma str_chars s : str (chars s) = s.
Proof. apply string_of_list_ascii_of_string. Qed.

Lemma chars_inj s t : chars s = chars t -> s = t.
Proof. intros H. rewrite <- (str_chars s), <- (str_chars t). now rewrite H. Qed.

Lemma chars_app s t : chars (s ++ t)%string = chars s ++ chars t.
Proof. induction s as [|c s IH]; simpl; [reflexivity|]. now rewrite IH. Qed.

Lemma chars_length s : length (chars s) = String.length s.
Proof. induction s as [|c s IH]; simpl; [reflexivity|]. now rewrite IH. Qed.

Lemma lower_char_idem c : lower_char (lower_char c) = lower_char c.
Proof. destruct c as [[] [] [] [] [] [] [] []]; reflexivity. Qed.

Lemma is_space_lower_char c : is_space (lower_char c) = is_space c.
Proof. destruct c as [[] [] [] [] [] [] [] []]; reflexivity. Qed.

Lemma lower_idem s : lower (lower s) = lower s.
Proof.
  unfold lower. rewrite chars_str, map_map. f_equal.
  apply map_ext. intros c. apply lower_char_idem.
Qed.

Lemma lower_str l : lower (str l) = str (map lower_char l).
Proof. unfold lower. now rewrite chars_str. Qed.

Lemma split_go_lower cur l :
  split_go (map lower_char cur) (map lower_char l)
  = map lower (split_go cur l).
Proof.
  revert cur. induction l as [|c l IH]; intros cur; simpl.
  - destruct cur as [|a cur]; simpl; [reflexivity|].
    now rewrite lower_str, map_app, map_rev.
  - rewrite is_space_lower_char. destruct (is_space c).
    + destruct cur as [|a cur]; simpl.
      * apply (IH []).
      * rewrite lower_str, map_app, map_rev. simpl. f_equal. apply (IH []).
    + apply (IH (c :: cur)).
Qed.

(** Lower-casing commutes with tokenisation. *)
Lemma split_lower s : split (lower s) = map lower (split s).
Proof.
  unfold split. unfold lower at 1. rewrite chars_str.
  apply (split_go_lower []).
Qed.

Lemma split_go_tokens cur l :
  Forall (fun c => is_space c = false) cur ->
  Forall token (split_go cur l).
Proof.
  revert cur. induction l as [|c l IH]; intros cur Hcur; simpl.
  - destruct cur as [|a cur]; [constructor|]. constructor; [|constructor].
    unfold token. rewrite chars_str. split.
    + intros E. apply (f_equal (@length _)) in E.
      rewrite length_rev in E. discriminate E.
    + now apply Forall_rev.
  - destruct (is_space c) eqn:Ec.
    + destruct cur as [|a cur]; [apply IH; constructor|].
      constructor; [|apply IH; constructor].
      unfold token. rewrite chars_str. split.
      * intros E. apply (f_equal (@length _)) in E.
        rewrite length_rev in E. discriminate E.
      * now apply Forall_rev.
    + apply IH. now constructor.
Qed.

(** Every word of [split] is a token. *)
Lemma split_tokens s : Forall token (split s).
Proof. apply split_go_tokens. constructor. Qed.

Lemma split_go_no_space cur l :
  Forall (fun c => is_space c = false) l ->
  split_go cur l = match rev l ++ cur with
                   | [] => []
                   | w => [str (rev w)]
                   end.
Proof.
  revert cur. induction l as [|c l IH]; intros cur Hl; simpl.
  - now destruct cur.
  - inversion Hl as [|? ? Hc Hl']; subst. rewrite Hc, IH by assumption.
    now rewrite <- app_assoc.
Qed.

(** A token is its own tokenisation. *)
Lemma split_token w : token w -> split w = [w].
Proof.
  intros [Hne Hns]. unfold split. rewrite split_go_no_space by assumption.
  rewrite app_nil_r. destruct (rev (chars w)) as [|a r] eqn:E.
  - apply (f_equal (@rev _)) in E. rewrite rev_involutive in E. contradiction.
  - rewrite <- E, rev_involutive. now rewrite str_chars.
Qed.

Lemma split_go_app_space cur l1 c l2 :
  is_space c = true ->
  split_go cur (l1 ++ c :: l2) = split_go cur l1 ++ split_go [] l2.
Proof.
  intros Hc. revert cur. induction l1 as [|a l1 IH]; intros cur; simpl.
  - rewrite Hc. now destruct cur.
  - destruct (is_space a); [|apply IH].
    destruct cur; simpl; now rewrite IH.
Qed.

(** Joining with one blank and splitting again concatenates the
    tokenisations of the parts. *)
Lemma split_join l : split (join " " l) = flat_map split l.
Proof.
  unfold join. induction l as [|x l IH]; [reflexivity|].
  destruct l as [|y l].
  - simpl. now rewrite app_nil_r.
  - change (String.concat " " (x :: y :: l))
      with (x ++ " " ++ String.concat " " (y :: l))%string.
    unfold split at 1. rewrite chars_app.
    change (chars (" " ++ String.concat " " (y :: l))%string)
      with (" "%char :: chars (String.concat " " (y :: l))).
    rewrite split_go_app_space by reflexivity.
    change (flat_map split (x :: y :: l))
      with (split x ++ flat_map split (y :: l)).
    now rewrite <- IH.
Qed.

(** The round trip: a list of tokens survives [join] then [split]. *)
Lemma split_join_tokens l : Forall token l -> split (join " " l) = l.
Proof.
  intros Hl. rewrite split_join.
  induction Hl as [|w l Hw Hl IH]; [reflexivity|].
  simpl. now rewrite split_token, IH.
Qed.

End PyStrFacts.

(** ** Tokenisation of documents and queries *)

Lemma split_lower_fixed s w : w ∈ PyStr.split (PyStr.lower s) -> PyStr.lower w = w.
Proof.
  rewrite split_lower. intros Hw.
  apply list_elem_of_fmap in Hw as (t & -> & _). apply lower_idem.
Qed.

Lemma split_lower_reconstruction s :
  PyStr.split (PyStr.lower (reconstruction s)) = PyStr.split (PyStr.lower s).
Proof.
  unfold reconstruction. rewrite (split_lower (PyStr.join _ _)).
  rewrite split_join_tokens by apply split_tokens.
  rewrite <- (map_id (PyStr.split (PyStr.lower s))) at 2.
  apply map_ext_in. intros w Hw. apply split_lower_fixed with s.
  now apply list_elem_of_In.
Qed.

(** X1: the text the lexical index keeps for a document is a fixed point of
    the indexing: it is lower-case, and tokenising or reconstructing it
    again gives the same tokens and the same text. *)
Theorem reconstruction_is_stable (doc : string) :
  PyStr.split (PyStr.lower (reconstruction doc))
    = PyStr.split (PyStr.lower doc) /\
  reconstruction (reconstruction doc) = reconstruction doc /\
  PyStr.lower (reconstruction doc) = reconstruction doc /\
  Forall token (PyStr.split (PyStr.lower doc)).
Proof.
  split; [apply split_lower_reconstruction|]. split; [|split].
  - unfold reconstruction at 1. now rewrite split_lower_reconstruction.
  - apply chars_inj. unfold reconstruction.
    rewrite <- (str_chars (PyStr.join " " _)) at 1. rewrite lower_str, chars_str.
    rewrite <- (map_id (PyStr.chars (PyStr.join _ _))) at 2.
    apply map_ext_in. intros c Hc.
    assert (Hall : Forall (fun w => PyStr.lower w = w)
                          (PyStr.split (PyStr.lower doc))).
    { rewrite Forall_forall. intros w Hw. eapply split_lower_fixed; eauto. }
    revert Hc. generalize (PyStr.split (PyStr.lower doc)) Hall.
    intros l Hl. unfold PyStr.join.
    induction Hl as [|w l Hw Hl IH]; simpl; [intros []|].
    assert (Hwc : forall c, In c (PyStr.chars w) -> PyStr.lower_char c = c).
    { intros c' Hc'. apply (f_equal PyStr.chars) in Hw.
      unfold PyStr.lower in Hw. rewrite chars_str in Hw.
      revert Hc'. generalize dependent (PyStr.chars w).
      induction l0 as [|a l0 IHl]; simpl; [intros _ []|].
      intros [= Ha Hl0] [<- | Hin]; auto. }
    destruct l as [|y l]; [apply Hwc|].
    rewrite !chars_app. intros Hc. apply in_app_or in Hc as [Hc | Hc];
      [now apply Hwc|].
    apply in_app_or in Hc as [[<- | []] | Hc]; [reflexivity|]. now apply IH.
  - apply split_tokens.
Qed.

(** ** extract_keywords *)

Lemma filter_all {A} (P : A -> Prop) `{forall x, Decision (P x)} (l : list A) :
  Forall P l -> filter P l = l.
Proof.
  induction 1 as [|x l Hx Hl IH]; [reflexivity|].
  rewrite filter_cons_True by assumption. now rewrite IH.
Qed.

Lemma count_occ_filter_keep {A} (dec : forall x y : A, {x = y} + {x <> y})
      (P : A -> Prop) `{forall x, Decision (P x)} (l : list A) (w : A) :
  P w -> count_occ dec (filter P l) w = count_occ dec l w.
Proof.
  intros Hw. induction l as [|x l IH]; [reflexivity|].
  destruct (decide (P x)) as [Hx | Hx].
  - rewrite filter_cons_True by assumption. simpl.
    destruct (dec x w); now rewrite IH.
  - rewrite filter_cons_False by assumption. simpl.
    destruct (dec x w) as [-> | _]; [contradiction | exact IH].
Qed.

(** X2: the keywords of a query are words of its lower-cased text, in
    their order of occurrence; each is lower-case, free of blanks, longer
    than two characters and not a stop word, and every word of the query
    with these properties is kept, as many times as it occurs. *)
Theorem extract_keywords_sound (query : string) :
  QueryEnhancer.extract_keywords query
    `sublist_of` PyStr.split (PyStr.lower query) /\
  Forall (fun w => (w ∉ QueryEnhancer.stop_words) /\
                   (2 < String.length w)%nat /\
                   token w /\ PyStr.lower w = w)
         (QueryEnhancer.extract_keywords query) /\
  (forall w, w ∈ PyStr.split (PyStr.lower query) ->
             w ∉ QueryEnhancer.stop_words -> (2 < String.length w)%nat ->
             w ∈ QueryEnhancer.extract_keywords query) /\
  (forall w, w ∉ QueryEnhancer.stop_words -> (2 < String.length w)%nat ->
             count_occ string_dec (QueryEnhancer.extract_keywords query) w
             = count_occ string_dec (PyStr.split (PyStr.lower query)) w).
Proof.
  unfold QueryEnhancer.extract_keywords. split; [apply sublist_filter|].
  split; [|split].
  - rewrite Forall_forall. intros w Hw.
    apply list_elem_of_filter in Hw as [[Hs Hl] Hw].
    split; [exact Hs|]. split; [exact Hl|]. split.
    + pose proof (split_tokens (PyStr.lower query)) as Ht.
      rewrite Forall_forall in Ht. now apply Ht.
    + now apply split_lower_fixed with query.
  - intros w Hw Hs Hl. apply list_elem_of_filter. now repeat split.
  - intros w Hs Hl. apply count_occ_filter_keep. now split.
Qed.

(** The keywords of a query with two stop words, a short word and two
    spellings of "kiosk": "kiosk" is kept twice. *)
Lemma extract_keywords_sound_witness :
  "kiosk" ∈ QueryEnhancer.extract_keywords "the KIOSK of a kiosk" /\
  count_occ string_dec
    (QueryEnhancer.extract_keywords "the KIOSK of a kiosk") "kiosk" = 2%nat.
Proof.
  destruct (extract_keywords_sound "the KIOSK of a kiosk") as (_ & _ & H & Hc).
  assert (Hs : "kiosk" ∉ QueryEnhancer.stop_words).
  { intros Hin. vm_compute in Hin. discriminate Hin. }
  split.
  - apply H; [vm_compute; apply list_elem_of_further, list_elem_of_here
             | exact Hs | simpl; lia].
  - rewrite (Hc "kiosk" Hs); [vm_compute; reflexivity | simpl; lia].
Defined.

Lemma extract_keywords_sound_aux (query : string) :
  Forall (fun w => token w /\ PyStr.lower w = w)
         (QueryEnhancer.extract_keywords query) /\
  Forall QueryEnhancer.is_keyword (QueryEnhancer.extract_keywords query).
Proof.
  unfold QueryEnhancer.extract_keywords.
  split; rewrite Forall_forall; intros w Hw;
    apply list_elem_of_filter in Hw as [Hk Hw]; [|exact Hk].
  split.
  - pose proof (split_tokens (PyStr.lower query)) as Ht.
    rewrite Forall_forall in Ht. now apply Ht.
  - now apply split_lower_fixed with query.
Qed.

(** X3: [extract_keywords] does not depend on the letter case of the query,
    and running it on its own output, joined with blanks, gives that output
    back. *)
Theorem extract_keywords_round_trip (query : string) :
  QueryEnhancer.extract_keywords (PyStr.lower query)
    = QueryEnhancer.extract_keywords query /\
  QueryEnhancer.extract_keywords
    (PyStr.join " " (QueryEnhancer.extract_keywords query))
    = QueryEnhancer.extract_keywords query.
Proof.
  split.
  - unfold QueryEnhancer.extract_keywords. now rewrite lower_idem.
  - destruct (extract_keywords_sound_aux query) as [Ht Hk].
    unfold QueryEnhancer.extract_keywords at 1.
    rewrite split_lower, split_join_tokens.
    + rewrite (map_ext_in _ (fun w => w)), map_id.
      * apply filter_all. exact Hk.
      * intros w Hw. rewrite Forall_forall in Ht.
        apply Ht. now apply list_elem_of_In.
    + eapply Forall_impl; [exact Ht|]. now intros w [H _].
Qed.

(** ** enhance_query, at the level of tokens *)

Lemma flat_map_split_tokens l : Forall token l -> flat_map PyStr.split l = l.
Proof.
  induction 1 as [|w l Hw Hl IH]; [reflexivity|].
  simpl. now rewrite split_token, IH.
Qed.

Lemma tokens_sublist_expansion words :
  Forall token words ->
  words `sublist_of` flat_map PyStr.split (flat_map expansion words).
Proof.
  induction 1 as [|w ws Hw Hws IH]; simpl; [constructor|].
  rewrite split_token by assumption. simpl.
  apply sublist_skip. rewrite flat_map_app. now apply sublist_inserts_l.
Qed.

(** X4: the enhanced query does not depend on the letter case of the
    query, and its tokens contain the tokens of the corrected query in their
    original order: enhancement only inserts tokens. *)
Theorem enhance_query_only_inserts_tokens (query : string) :
  QueryEnhancer.enhance_query (PyStr.lower query)
    = QueryEnhancer.enhance_query query /\
  PyStr.split (QueryEnhancer.fix_misspellings
                 (PyStr.strip (PyStr.lower query)))
    `sublist_of` PyStr.split (QueryEnhancer.enhance_query query).
Proof.
  split.
  - unfold QueryEnhancer.enhance_query. now rewrite lower_idem.
  - unfold QueryEnhancer.enhance_query, QueryEnhancer.enhanced_words_of.
    rewrite fold_add_word, split_join, app_nil_l.
    apply tokens_sublist_expansion, split_tokens.
Qed.

(** ** Queries as the branches see them *)

Lemma scored_docs_tokens (store : Store) index q1 q2 :
  PyStr.split (PyStr.lower q1) = PyStr.split (PyStr.lower q2) ->
  scored_docs store index q1 = scored_docs store index q2.
Proof. intros H. unfold scored_docs. now rewrite H. Qed.

Lemma bm25_search_tokens (store : Store) e q1 q2 n :
  PyStr.split (PyStr.lower q1) = PyStr.split (PyStr.lower q2) ->
  bm25_search store e q1 n = bm25_search store e q2 n.
Proof.
  intros H. rewrite !bm25_search_init.
  destruct (_initialize_bm25 store e) as [e'|msg]; [|reflexivity].
  unfold bm25_ranked. destruct (bm25_index e') as [index|]; [|reflexivity].
  now rewrite (scored_docs_tokens store index q1 q2 H).
Qed.

(** X5: outside vector mode, [search] does not depend on the letter case of
    the query; in bm25 mode it does not depend on the blanks between its
    words either. *)
Theorem search_query_normalisation (store : Store) (e : HybridSearchEngine)
        (query : string) (k : Z) (search_type : string) :
  search_type <> "vector" ->
  search store e (PyStr.lower query) k search_type
    = search store e query k search_type /\
  search store e (reconstruction query) k "bm25"
    = search store e query k "bm25".
Proof.
  intros Hv. apply String.eqb_neq in Hv. split.
  - unfold search. rewrite Hv. destruct (String.eqb search_type "bm25").
    + rewrite (bm25_search_tokens store e (PyStr.lower query) query);
        [reflexivity | now rewrite lower_idem].
    + unfold hybrid_search, QueryEnhancer.enhance_query.
      now rewrite lower_idem.
  - unfold search. simpl.
    now rewrite (bm25_search_tokens store e (reconstruction query) query)
      by apply split_lower_reconstruction.
Qed.

(** "KIOSK   Mode" is searched as "kiosk mode". *)
Lemma search_query_normalisation_witness :
  search Demo.store Demo.built (PyStr.lower "KIOSK   Mode") 5 "bm25"
    = search Demo.store Demo.built "KIOSK   Mode" 5 "bm25" /\
  search Demo.store Demo.built "kiosk mode" 5 "bm25"
    = search Demo.store Demo.built "KIOSK   Mode" 5 "bm25".
Proof.
  destruct (search_query_normalisation Demo.store Demo.built
              "KIOSK   Mode" 5 "bm25") as [H1 H2]; [discriminate|].
  split; [exact H1 | exact H2].
Defined.

(** ** Shape of a hybrid result list *)

Section OdictKeys.

Context {V : Type}.
Implicit Types (d : Py.odict V) (k : value) (v : V).

Lemma odict_lookup_None k d : Py.lookup k d = None <-> k ∉ map fst d.
Proof.
  induction d as [|[k' v'] d IH]; simpl.
  - split; [intros _; apply not_elem_of_nil | reflexivity].
  - rewrite not_elem_of_cons. destruct (decide (k = k')) as [-> | Hne].
    + split; [discriminate | intros [H _]; now elim H].
    + rewrite IH. tauto.
Qed.

Lemma odict_set_keys k v d :
  map fst (Py.set k v d)
  = match Py.lookup k d with
    | Some _ => map fst d
    | None => map fst d ++ [k]
    end.
Proof.
  induction d as [|[k' v'] d IH]; simpl; [reflexivity|].
  destruct (decide (k = k')) as [-> | Hne]; simpl; [reflexivity|].
  rewrite IH. now destruct (Py.lookup k d).
Qed.

Lemma odict_alter_keys f k d : map fst (Py.alter f k d) = map fst d.
Proof.
  induction d as [|[k' v'] d IH]; simpl; [reflexivity|].
  destruct (decide (k = k')); simpl; [reflexivity | now rewrite IH].
Qed.

Lemma odict_snoc_NoDup k d :
  Py.lookup k d = None -> NoDup (map fst d) -> NoDup (map fst d ++ [k]).
Proof.
  intros Hk Hd. apply NoDup_app. split; [exact Hd|]. split.
  - intros x Hx Hx'. apply list_elem_of_singleton in Hx'. subst x.
    now apply odict_lookup_None in Hk.
  - apply NoDup_singleton.
Qed.

End OdictKeys.

Lemma add_vector_keys d r :
  NoDup (map fst d) ->
  NoDup (map fst (add_vector d r)) /\
  (length (add_vector d r) <= S (length d))%nat.
Proof.
  intros Hd. unfold add_vector. destruct (truthy _); [|split; [exact Hd | lia]].
  pose proof (odict_set_keys (doc_id_of (vh_metadata r)) (vector_entry r) d) as Hk.
  assert (Hl : length (map fst (Py.set (doc_id_of (vh_metadata r))
                                       (vector_entry r) d))
               = length (Py.set (doc_id_of (vh_metadata r)) (vector_entry r) d))
    by apply length_map.
  rewrite <- Hl, Hk.
  destruct (Py.lookup _ d) eqn:E.
  - rewrite length_map. split; [exact Hd | lia].
  - rewrite length_app, length_map. simpl.
    split; [now apply odict_snoc_NoDup | lia].
Qed.

Lemma add_bm25_keys d b :
  NoDup (map fst d) ->
  NoDup (map fst (add_bm25 d b)) /\
  (length (add_bm25 d b) <= S (length d))%nat.
Proof.
  intros Hd. unfold add_bm25. destruct (truthy _); [|split; [exact Hd | lia]].
  destruct (Py.lookup _ d) eqn:E.
  - split; [now rewrite odict_alter_keys|].
    rewrite <- (length_map fst), odict_alter_keys, length_map. lia.
  - rewrite map_app, length_app. simpl.
    split; [now apply odict_snoc_NoDup | lia].
Qed.

(** The keys of the merge dictionary are pairwise distinct, and it holds at
    most one entry per hit. *)
Lemma combined_results_keys VR BR :
  NoDup (map fst (combined_results VR BR)) /\
  (length (combined_results VR BR) <= length VR + length BR)%nat.
Proof.
  unfold combined_results.
  assert (Hv : forall l d, NoDup (map fst d) ->
             NoDup (map fst (fold_left add_vector l d)) /\
             (length (fold_left add_vector l d) <= length l + length d)%nat).
  { induction l as [|r l IH]; intros d Hd; simpl; [split; [exact Hd | lia]|].
    destruct (add_vector_keys d r Hd) as [Hn Hl].
    destruct (IH _ Hn) as [Hn' Hl']. split; [exact Hn' | lia]. }
  assert (Hb : forall l d, NoDup (map fst d) ->
             NoDup (map fst (fold_left add_bm25 l d)) /\
             (length (fold_left add_bm25 l d) <= length l + length d)%nat).
  { induction l as [|b l IH]; intros d Hd; simpl; [split; [exact Hd | lia]|].
    destruct (add_bm25_keys d b Hd) as [Hn Hl].
    destruct (IH _ Hn) as [Hn' Hl']. split; [exact Hn' | lia]. }
  destruct (Hv VR [] (NoDup_nil_2 : NoDup (map fst ([] : Py.odict Combined)))) as [Hn Hl].
  destruct (Hb BR _ Hn) as [Hn' Hl']. split; [exact Hn'|].
  simpl in Hl. lia.
Qed.

Lemma combined_results_entry_key VR BR k c :
  (k, c) ∈ combined_results VR BR ->
  truthy k = true /\ doc_id_of (c_metadata c) = k.
Proof.
  intros H. apply combined_results_provenance in H as [Ht [Hv | Hb]].
  - destruct Hv as (v & _ & Hk & _ & Hm & _). now rewrite Hm.
  - destruct Hb as (b & _ & Hk & _ & Hm & _). now rewrite Hm.
Qed.

Lemma StronglySorted_True {A} (l : list A) :
  StronglySorted (fun _ _ => True) l.
Proof.
  induction l as [|x l IH]; constructor; [exact IH|].
  rewrite Forall_forall. auto.
Qed.

Lemma final_results_sorted e VR BR :
  StronglySorted (fun a b => (SearchResult.hybrid_score b
                              <= SearchResult.hybrid_score a)%Q)
                 (final_results e VR BR).
Proof.
  unfold final_results.
  pose proof (sort_desc_stable SearchResult.hybrid_score (fun _ _ => True) _
                (StronglySorted_True
                   (map (make_result e) (combined_results VR BR)))) as H.
  induction H as [|x l Hs IH Hx]; constructor; [exact IH|].
  eapply Forall_impl; [exact Hx|]. intros y Hy.
  eapply stable_desc_le. exact Hy.
Qed.

Lemma final_results_keys e VR BR :
  NoDup (map result_key (final_results e VR BR)) /\
  Forall (fun r => truthy (result_key r) = true) (final_results e VR BR) /\
  (length (final_results e VR BR) <= length VR + length BR)%nat.
Proof.
  destruct (combined_results_keys VR BR) as [Hn Hl].
  assert (Hk : map result_key (map (make_result e) (combined_results VR BR))
               = map fst (combined_results VR BR)).
  { rewrite map_map. apply map_ext_in. intros [k c] Hin.
    apply list_elem_of_In, combined_results_entry_key in Hin as [_ Hk].
    exact Hk. }
  pose proof (sort_desc_perm SearchResult.hybrid_score
                (map (make_result e) (combined_results VR BR))) as Hp.
  split; [|split].
  - assert (Hq : map result_key (final_results e VR BR)
                 ≡ₚ map fst (combined_results VR BR)).
    { rewrite <- Hk. apply Permutation_map. exact Hp. }
    rewrite Hq. exact Hn.
  - rewrite Forall_forall. intros r Hr.
    apply final_results_elem in Hr as (k & c & Hkc & ->).
    apply combined_results_entry_key in Hkc as [Ht Hk'].
    unfold result_key. simpl. now rewrite Hk'.
  - unfold final_results. rewrite (Permutation_length Hp), length_map. exact Hl.
Qed.

(** X6: when the lexical index is available, a hybrid search returns a list
    sorted by descending hybrid score, of at most [k] results for a
    non-negative [k] and never more than the two branches returned hits. *)
Theorem hybrid_search_sorted_truncated (store : Store)
        (e e' : HybridSearchEngine) (query : string) (k : Z) :
  _initialize_bm25 store e = Returned e' ->
  exists out,
    hybrid_search store e query k = Returned (e', out) /\
    StronglySorted (fun a b => (SearchResult.hybrid_score b
                                <= SearchResult.hybrid_score a)%Q) out /\
    (0 <= k -> Z.of_nat (length out) <= k) /\
    (length out
     <= length (vector_search store (QueryEnhancer.enhance_query query) (k * 2))
        + length (bm25_ranked store e' (QueryEnhancer.enhance_query query)
                              (k * 2)))%nat.
Proof.
  intros Hinit. eexists. split.
  { unfold hybrid_search. rewrite bm25_search_init, Hinit. reflexivity. }
  split; [apply StronglySorted_slice, final_results_sorted|].
  split; [apply slice_length|].
  destruct (slice_is_prefix k (final_results e'
    (vector_search store (QueryEnhancer.enhance_query query) (k * 2))
    (bm25_ranked store e' (QueryEnhancer.enhance_query query) (k * 2))))
    as [m ->].
  rewrite length_take.
  pose proof (final_results_keys e'
    (vector_search store (QueryEnhancer.enhance_query query) (k * 2))
    (bm25_ranked store e' (QueryEnhancer.enhance_query query) (k * 2)))
    as (_ & _ & Hl).
  lia.
Qed.

(** With [k = 2] the demo engine returns the two best of its four fused
    results. *)
Lemma hybrid_search_sorted_truncated_witness :
  exists out,
    hybrid_search Demo.store Demo.fresh "kiosk mode" 2
      = Returned (Demo.built, out) /\
    length out = 2%nat /\
    StronglySorted (fun a b => (SearchResult.hybrid_score b
                                <= SearchResult.hybrid_score a)%Q) out.
Proof.
  destruct (hybrid_search_sorted_truncated Demo.store Demo.fresh Demo.built
              "kiosk mode" 2 eq_refl) as (out & Hs & Hsorted & _).
  exists out. split; [exact Hs|]. split; [|exact Hsorted].
  vm_compute in Hs. inversion Hs. reflexivity.
Defined.

(** X7: the results of a hybrid search carry pairwise distinct identifiers
    (the ['url'], or the ['id'] when there is no ['url'] key), none of them
    empty: a document found by both branches is returned once. *)
Theorem hybrid_search_distinct_identifiers (store : Store)
        (e e' : HybridSearchEngine) (query : string) (k : Z)
        (out : list SearchResult.t) :
  hybrid_search store e query k = Returned (e', out) ->
  NoDup (map result_key out) /\
  Forall (fun r => truthy (result_key r) = true) out.
Proof.
  unfold hybrid_search. rewrite bm25_search_init.
  destruct (_initialize_bm25 store e) as [e1|msg]; [|discriminate].
  intros [= <- <-].
  set (fused := final_results e1 _ _).
  destruct (final_results_keys e1
    (vector_search store (QueryEnhancer.enhance_query query) (k * 2))
    (bm25_ranked store e1 (QueryEnhancer.enhance_query query) (k * 2)))
    as (Hn & Ht & _).
  fold fused in Hn, Ht.
  destruct (slice_is_prefix k fused) as [m ->]. split.
  - rewrite <- firstn_map.
    eapply sublist_NoDup; [exact Hn | apply sublist_take].
  - rewrite Forall_forall in Ht |- *. intros r Hr. apply Ht.
    rewrite <- (take_drop m fused). apply elem_of_app. now left.
Qed.

(** The hybrid results of the demo engine: four results, four distinct
    identifiers. *)
Lemma hybrid_search_distinct_identifiers_witness :
  exists out,
    hybrid_search Demo.store Demo.fresh "kiosk mode" 5
      = Returned (Demo.built, out) /\
    length out = 4%nat /\
    NoDup (map result_key out).
Proof.
  assert (Hs : exists out, hybrid_search Demo.store Demo.fresh "kiosk mode" 5
                           = Returned (Demo.built, out) /\ length out = 4%nat).
  { vm_compute. eexists. split; reflexivity. }
  destruct Hs as (out & Hs & Hl).
  destruct (hybrid_search_distinct_identifiers _ _ _ _ _ _ Hs) as [Hn _].
  exists out. repeat split; assumption.
Defined.

(** ** A document found by both branches *)

Lemma add_bm25_lookup_update d b c :
  truthy (bkey b) = true ->
  Py.lookup (bkey b) d = Some c ->
  Py.lookup (bkey b) (add_bm25 d b) = Some (set_bm25 b c).
Proof.
  intros Ht Hd. unfold add_bm25. fold (bkey b). rewrite Ht, Hd.
  now rewrite odict_lookup_alter_eq, Hd.
Qed.

Lemma fold_add_bm25_update l1 b l2 d c :
  truthy (bkey b) = true ->
  Py.lookup (bkey b) d = Some c ->
  (forall b', b' ∈ l1 -> bkey b' <> bkey b) ->
  (forall b', b' ∈ l2 -> bkey b' <> bkey b) ->
  Py.lookup (bkey b) (fold_left add_bm25 (l1 ++ b :: l2) d)
  = Some (set_bm25 b c).
Proof.
  intros Ht Hd H1 H2. rewrite fold_left_app. simpl.
  rewrite fold_add_bm25_other by assumption.
  apply add_bm25_lookup_update; [assumption|].
  now rewrite fold_add_bm25_other.
Qed.

Lemma NoDup_map_lookup {A B} (f : A -> B) (l : list A) (i j : nat) x y :
  NoDup (map f l) -> l !! i = Some x -> l !! j = Some y -> f x = f y -> i = j.
Proof.
  intros Hn Hi Hj Hf. eapply NoDup_lookup; [exact Hn | |].
  - change (map f l) with (f <$> l). rewrite list_lookup_fmap, Hi. reflexivity.
  - change (map f l) with (f <$> l). rewrite list_lookup_fmap, Hj. simpl.
    now rewrite Hf.
Qed.

(** X8: a document that the vector branch returns under an identifier (as
    its last hit with it) and the lexical branch returns once under the same
    identifier is fused into exactly one result: content and metadata of the
    vector hit, the vector score of the one hit, the BM25 score of the other,
    and their weighted sum as hybrid score. *)
Theorem fusion_of_common_document (e : HybridSearchEngine)
        (VR l1 l2 : list VectorHit) (r : VectorHit)
        (BR m1 m2 : list BM25Hit) (b : BM25Hit) :
  VR = l1 ++ r :: l2 ->
  BR = m1 ++ b :: m2 ->
  truthy (vkey r) = true ->
  bkey b = vkey r ->
  (forall r', r' ∈ l2 -> vkey r' <> vkey r) ->
  (forall b', b' ∈ m1 -> bkey b' <> bkey b) ->
  (forall b', b' ∈ m2 -> bkey b' <> bkey b) ->
  exists (i : nat) sr,
    final_results e VR BR !! i = Some sr /\
    SearchResult.content sr = display (vh_content r) /\
    SearchResult.metadata sr = vh_metadata r /\
    SearchResult.vector_score sr = vh_vector_score r /\
    SearchResult.bm25_score sr = bh_bm25_score b /\
    SearchResult.hybrid_score sr
      = (vector_weight e * vh_vector_score r
         + bm25_weight e * bh_bm25_score b)%Q /\
    (forall (j : nat) sr',
        final_results e VR BR !! j = Some sr' ->
        result_key sr' = vkey r -> j = i).
Proof.
  intros -> -> Ht Hk Hl2 Hm1 Hm2.
  assert (Hc : Py.lookup (vkey r)
                 (combined_results (l1 ++ r :: l2) (m1 ++ b :: m2))
               = Some (set_bm25 b (vector_entry r))).
  { unfold combined_results. rewrite <- Hk.
    apply fold_add_bm25_update; try assumption; [now rewrite Hk|].
    rewrite Hk. now apply fold_add_vector_last. }
  destruct (final_results_of_lookup e _ _ _ _ Hc) as [i Hi].
  exists i, (make_result e (vkey r, set_bm25 b (vector_entry r))).
  split; [exact Hi|]. simpl. repeat split.
  intros j sr' Hj Hkey.
  destruct (final_results_keys e (l1 ++ r :: l2) (m1 ++ b :: m2)) as (Hn & _).
  eapply (NoDup_map_lookup result_key); eauto.
Qed.

(** Document B fused from a vector hit and a lexical hit with the same
    url. *)
Lemma fusion_of_common_document_witness :
  exists (i : nat) sr,
    final_results Demo.fresh [Demo.hit_b; Demo.hit_x]
      [Demo.lex_a; {| bh_content := "windows installation steps";
                      bh_metadata := Demo.meta "https://kb/b" "B";
                      bh_bm25_score := 3; bh_rank := 2 |}] !! i = Some sr /\
    SearchResult.vector_score sr = vh_vector_score Demo.hit_b /\
    SearchResult.bm25_score sr = 3%Q.
Proof.
  destruct (fusion_of_common_document Demo.fresh
              [Demo.hit_b; Demo.hit_x] [] [Demo.hit_x] Demo.hit_b
              [Demo.lex_a; {| bh_content := "windows installation steps";
                              bh_metadata := Demo.meta "https://kb/b" "B";
                              bh_bm25_score := 3; bh_rank := 2 |}]
              [Demo.lex_a] []
              {| bh_content := "windows installation steps";
                 bh_metadata := Demo.meta "https://kb/b" "B";
                 bh_bm25_score := 3; bh_rank := 2 |})
    as (i & sr & Hi & _ & _ & Hv & Hb & _).
  - reflexivity.
  - reflexivity.
  - reflexivity.
  - reflexivity.
  - intros r' Hr'. apply list_elem_of_singleton in Hr'. subst r'.
    intros E. vm_compute in E. discriminate E.
  - intros b' Hb'. apply list_elem_of_singleton in Hb'. subst b'.
    intros E. vm_compute in E. discriminate E.
  - intros b' Hb'. inversion Hb'.
  - exists i, sr. repeat split; assumption.
Defined.

(** ** The lazy build of the lexical index *)

Lemma initialize_bm25_again (store : Store) (e e' : HybridSearchEngine) :
  _initialize_bm25 store e = Returned e' ->
  _initialize_bm25 store e' = Returned e'.
Proof.
  intros H. pose proof H as H'. unfold _initialize_bm25 in H.
  destruct (_bm25_initialized e) eqn:Hi.
  { inversion H; subst. exact H'. }
  destruct (collection_get store) as [msg | [documents metadatas]];
    [discriminate|].
  destruct documents as [|d documents].
  { inversion H; subst. exact H'. }
  destruct (bm25_okapi_raises store _); [discriminate|].
  inversion H; subst. reflexivity.
Qed.

(** X9: a search that returned can be repeated on the engine it left
    behind: the engine is then unchanged and the results are the same. *)
Theorem search_is_repeatable (store : Store) (e e' : HybridSearchEngine)
        (query : string) (k : Z) (search_type : string)
        (out : list SearchResult.t) :
  search store e query k search_type = Returned (e', out) ->
  search store e' query k search_type = Returned (e', out).
Proof.
  unfold search, hybrid_search.
  destruct (String.eqb search_type "vector"); [now intros [= <- <-]|].
  rewrite !bm25_search_init.
  destruct (String.eqb search_type "bm25");
    destruct (_initialize_bm25 store e) as [e1|msg] eqn:Hinit;
    try discriminate; intros [= <- <-];
    now rewrite (initialize_bm25_again _ _ _ Hinit).
Qed.

(** The first hybrid search builds the index; the second one, on the built
    engine, returns the same results. *)
Lemma search_is_repeatable_witness :
  exists out,
    search Demo.store Demo.fresh "kiosk mode" 5 "hybrid"
      = Returned (Demo.built, out) /\
    search Demo.store Demo.built "kiosk mode" 5 "hybrid"
      = Returned (Demo.built, out) /\
    _bm25_initialized Demo.fresh = false /\
    _bm25_initialized Demo.built = true.
Proof.
  assert (Hs : exists out, search Demo.store Demo.fresh "kiosk mode" 5 "hybrid"
                           = Returned (Demo.built, out)).
  { vm_compute. eexists. reflexivity. }
  destruct Hs as (out & Hs). exists out. split; [exact Hs|].
  split; [exact (search_is_repeatable _ _ _ _ _ _ _ Hs)|].
  split; reflexivity.
Defined.

(** X10: over a store without documents a fresh engine is never built: it
    comes back unchanged, bm25 mode returns the empty list, hybrid mode
    returns results with a BM25 score of 0 only, and none at all when the
    query of the vector store raises. *)
Theorem empty_corpus_search (store : Store) (vw bw : Q) (query : string)
        (k : Z) (metadatas : list Metadata) :
  collection_get store = inr ([], metadatas) ->
  search store (new_engine vw bw) query k "bm25"
    = Returned (new_engine vw bw, []) /\
  (exists out,
      search store (new_engine vw bw) query k "hybrid"
        = Returned (new_engine vw bw, out) /\
      Forall (fun r => SearchResult.bm25_score r = 0%Q) out) /\
  (collection_query store (QueryEnhancer.enhance_query query) (k * 2) = None ->
   search store (new_engine vw bw) query k "hybrid"
     = Returned (new_engine vw bw, [])).
Proof.
  intros Hget.
  assert (Hinit : _initialize_bm25 store (new_engine vw bw)
                  = Returned (new_engine vw bw)).
  { unfold _initialize_bm25. simpl. now rewrite Hget. }
  assert (Hb : forall q n, bm25_search store (new_engine vw bw) q n
                           = Returned (new_engine vw bw, [])).
  { intros q n. now rewrite bm25_search_init, Hinit. }
  split; [|split].
  - unfold search. simpl. now rewrite Hb.
  - eexists. split.
    { unfold search, hybrid_search. simpl. rewrite Hb. reflexivity. }
    rewrite Forall_forall. intros r Hr. apply slice_subseteq in Hr.
    apply final_results_elem in Hr as (key & c & Hkc & ->). simpl.
    apply combined_results_provenance in Hkc as [_ [Hv | Hl]].
    + destruct Hv as (v & _ & _ & _ & _ & _ & [H0 | (b & Hb' & _)]);
        [exact H0 | now apply not_elem_of_nil in Hb'].
    + destruct Hl as (b & Hb' & _). now apply not_elem_of_nil in Hb'.
  - intros Hq. unfold search, hybrid_search. simpl.
    rewrite Hb, (vector_search_raises store _ _ Hq).
    unfold final_results, combined_results. simpl.
    destruct (slice_is_prefix k ([] : list SearchResult.t)) as [m ->].
    now destruct m.
Qed.

(** The store with the empty corpus: bm25 mode finds nothing and leaves the
    engine unbuilt. *)
Lemma empty_corpus_search_witness :
  search Demo.store_empty_url Demo.fresh "setup" 5 "bm25"
    = Returned (Demo.fresh, []) /\
  _bm25_initialized Demo.fresh = false.
Proof.
  destruct (empty_corpus_search Demo.store_empty_url (7 # 10) (3 # 10)
              "setup" 5 [] eq_refl) as (H & _).
  split; [exact H | reflexivity].
Defined.

(** ** What a lexical hit is made of *)

Lemma combine_lookup {A B} (l1 : list A) (l2 : list B) (i : nat) a b :
  combine l1 l2 !! i = Some (a, b) <-> l1 !! i = Some a /\ l2 !! i = Some b.
Proof.
  revert l2 i. induction l1 as [|x l1 IH]; intros [|y l2] [|i]; simpl;
    try (split; [discriminate | intros [? ?]; discriminate]).
  - split; [intros [= -> ->]; auto | intros [[= ->] [= ->]]; reflexivity].
  - apply IH.
Qed.

Lemma enumerate_from_elem {A} (k : nat) (l : list A) (i : nat) x :
  (i, x) ∈ Py.enumerate_from k l -> (k <= i)%nat /\ l !! (i - k)%nat = Some x.
Proof.
  intros H. apply list_elem_of_lookup_1 in H as [j Hj].
  rewrite enumerate_from_lookup in Hj.
  destruct (l !! j) as [y|] eqn:E; [|discriminate].
  simpl in Hj. inversion Hj; subst. split; [lia|].
  now replace (k + j - k)%nat with j by lia.
Qed.

(** X11: on an index built by [_initialize_bm25], every hit of
    [bm25_search] is made of one and the same ingested document: its
    content is the reconstruction of the document's text, its metadata is the
    document's metadata with the position added as ['doc_index'], and its
    score is the score the scorer gave to that position. *)
Theorem bm25_hit_alignment (store : Store) (e0 e : HybridSearchEngine)
        (query : string) (n : Z) :
  _bm25_initialized e0 = false ->
  _initialize_bm25 store e0 = Returned e ->
  _bm25_initialized e = true ->
  exists documents metadatas,
    collection_get store = inr (documents, metadatas) /\
    Forall (fun h => exists (i : nat) doc m0,
                documents !! i = Some doc /\
                metadatas !! i = Some m0 /\
                get_scores store (documents_corpus e)
                           (PyStr.split (PyStr.lower query)) !! i
                  = Some (bh_bm25_score h) /\
                bh_content h = reconstruction doc /\
                bh_metadata h = <["doc_index" := VInt (Z.of_nat i)]> m0)
           (bm25_ranked store e query n).
Proof.
  intros H0 Hinit H1.
  destruct (initialize_bm25_built store e0 e H0 Hinit H1)
    as (documents & metadatas & Hget & _ & _ & Hidx & Hcorpus & Hmeta).
  exists documents, metadatas. split; [exact Hget|].
  destruct (bm25_ranked_hits store e query n _ Hidx) as [-> | H];
    [constructor|].
  rewrite Forall_forall. intros h Hh.
  apply list_elem_of_lookup_1 in Hh as [j Hj].
  destruct (Forall2_lookup_r _ _ _ _ _ H Hj)
    as ([i sc] & Hp & Hs & Hm & tokens & Ht & Hc).
  simpl in Hs, Hm, Ht.
  assert (Hsc : get_scores store (documents_corpus e)
                  (PyStr.split (PyStr.lower query)) !! i = Some sc).
  { apply list_elem_of_lookup_2, list_elem_of_In, filter_In in Hp as [Hp _].
    apply list_elem_of_In, slice_subseteq in Hp.
    unfold scored_docs in Hp. apply sort_desc_elem in Hp.
    apply enumerate_from_elem in Hp as [_ Hp].
    now rewrite Nat.sub_0_r in Hp. }
  rewrite Hcorpus, list_lookup_fmap in Ht.
  rewrite Hmeta, list_lookup_fmap in Hm. unfold Py.enumerate in Hm.
  rewrite enumerate_from_lookup in Hm.
  destruct (combine documents metadatas !! i) as [[doc m0]|] eqn:Hdm;
    [|discriminate].
  simpl in Ht, Hm. apply combine_lookup in Hdm as [Hd Hm0].
  exists i, doc, m0. rewrite Hs.
  repeat split; try assumption.
  - rewrite Hc. unfold reconstruction. now inversion Ht.
  - now inversion Hm.
Qed.

(** The second hit of the demo search is document C: position 2, score 2,
    its metadata extended by the position. *)
Lemma bm25_hit_alignment_witness :
  exists h,
    bm25_ranked Demo.store Demo.built "kiosk mode" 5 !! 1%nat = Some h /\
    bh_content h = reconstruction "Kiosk   MODE lockdown" /\
    bh_metadata h = <["doc_index" := VInt 2]> (Demo.meta "https://kb/c" "C") /\
    exists documents metadatas,
      collection_get Demo.store = inr (documents, metadatas) /\
      Forall (fun h => exists (i : nat) doc,
                  documents !! i = Some doc /\
                  bh_content h = reconstruction doc)
             (bm25_ranked Demo.store Demo.built "kiosk mode" 5).
Proof.
  exists Demo.lex_c. split; [vm_compute; reflexivity|].
  split; [reflexivity|]. split; [reflexivity|].
  destruct (bm25_hit_alignment Demo.store Demo.fresh Demo.built "kiosk mode" 5)
    as (documents & metadatas & Hget & Hf);
    [reflexivity | reflexivity | reflexivity |].
  exists documents, metadatas. split; [exact Hget|].
  eapply Forall_impl; [exact Hf|].
  intros h (i & doc & m0 & Hd & _ & _ & Hc & _). eauto.
Defined.

Lemma bm25_hits_ranks e rank l hits :
  bm25_hits e rank l = Some hits ->
  Forall (fun h => rank < bh_rank h <= rank + Z.of_nat (length l)) hits /\
  StronglySorted (fun a b => bh_rank a < bh_rank b) hits.
Proof.
  revert rank hits. induction l as [|[i sc] l IH]; intros rank hits H; simpl in H.
  - inversion H. split; constructor.
  - assert (Hstep : forall hs,
               bm25_hits e (rank + 1) l = Some hs ->
               Forall (fun h => rank + 1 < bh_rank h
                                <= rank + Z.of_nat (length ((i, sc) :: l))) hs /\
               StronglySorted (fun a b => bh_rank a < bh_rank b) hs).
    { intros hs Hhs. destruct (IH _ _ Hhs) as [Hf Hs]. split; [|exact Hs].
      eapply Forall_impl; [exact Hf|]. simpl. intros h Hh. lia. }
    destruct (Py.Qltb 0 sc).
    + destruct (documents_corpus e !! i); [|discriminate].
      destruct (documents_metadata e !! i); [|discriminate].
      destruct (bm25_hits e (rank + 1) l) as [rest|] eqn:Hr; [|discriminate].
      inversion H; subst. destruct (Hstep rest eq_refl) as [Hf Hs]. split.
      * constructor; [simpl; lia|].
        eapply Forall_impl; [exact Hf|]. simpl. intros h Hh. lia.
      * constructor; [exact Hs|].
        eapply Forall_impl; [exact Hf|]. simpl. intros h Hh. lia.
    + destruct (Hstep hits H) as [Hf Hs]. split; [|exact Hs].
      eapply Forall_impl; [exact Hf|]. simpl. intros h Hh. lia.
Qed.

(** X12: the ranks of the hits of [bm25_search] are their 1-based positions
    in the score-sorted corpus: they increase strictly along the list, start
    at 1 or later and, for a non-negative [n_results], do not exceed it. *)
Theorem bm25_search_ranks (store : Store) (e : HybridSearchEngine)
        (query : string) (n_results : Z) :
  StronglySorted (fun a b => bh_rank a < bh_rank b)
                 (bm25_ranked store e query n_results) /\
  Forall (fun h => 1 <= bh_rank h) (bm25_ranked store e query n_results) /\
  (0 <= n_results ->
   Forall (fun h => bh_rank h <= n_results)
          (bm25_ranked store e query n_results)).
Proof.
  unfold bm25_ranked. destruct (bm25_index e) as [index|];
    [|repeat split; constructor].
  destruct (bm25_hits e 0 _) as [hits|] eqn:Hh; [|repeat split; constructor].
  destruct (bm25_hits_ranks _ _ _ _ Hh) as [Hf Hs].
  split; [exact Hs|]. split.
  - eapply Forall_impl; [exact Hf|]. simpl. intros h Hr. lia.
  - intros Hn. pose proof (slice_length n_results (scored_docs store index query) Hn).
    eapply Forall_impl; [exact Hf|]. simpl. intros h Hr. lia.
Qed.

(** The two hits of the demo search have the ranks 1 and 2. *)
Lemma bm25_search_ranks_witness :
  map bh_rank (bm25_ranked Demo.store Demo.built "kiosk mode" 5) = [1; 2] /\
  Forall (fun h => bh_rank h <= 5)
         (bm25_ranked Demo.store Demo.built "kiosk mode" 5).
Proof.
  split; [vm_compute; reflexivity|].
  destruct (bm25_search_ranks Demo.store Demo.built "kiosk mode" 5)
    as (_ & _ & H).
  apply H. lia.
Defined.

(** ** The vector branch at its edges *)

Lemma vector_hits_zero_division i l c :
  c ∈ l -> (1 + snd c == 0)%Q -> vector_hits i l = None.
Proof.
  intros Hc Hz. revert i.
  induction l as [|[[doc m] d] l IH]; intros i; [now apply not_elem_of_nil in Hc|].
  simpl. apply elem_of_cons in Hc as [-> | Hc].
  - simpl in Hz. apply Qeq_bool_iff in Hz. now rewrite Hz.
  - destruct (Qeq_bool (1 + d) 0); [reflexivity|].
    now rewrite (IH Hc).
Qed.

(** X13: one candidate at distance -1 empties the vector branch: the
    division by zero is absorbed and [vector_search] returns no hit at all,
    so vector mode returns the empty list. *)
Theorem vector_search_zero_division (store : Store) (e : HybridSearchEngine)
        (query : string) (n : Z) documents metadatas distances c :
  collection_query store query n = Some (documents, metadatas, distances) ->
  c ∈ Py.zip3 documents metadatas distances ->
  (snd c == -1)%Q ->
  vector_search store query n = [] /\
  search store e query n "vector" = Returned (e, []).
Proof.
  intros Hq Hc Hd.
  assert (Hv : vector_search store query n = []).
  { unfold vector_search. rewrite Hq.
    rewrite (vector_hits_zero_division 0 _ c Hc); [reflexivity|].
    rewrite Hd. reflexivity. }
  split; [exact Hv|]. unfold search. simpl. now rewrite Hv.
Qed.

(** A good candidate followed by one at distance -1: no hit. *)
Lemma vector_search_zero_division_witness :
  search Demo.store_bad_distance Demo.fresh "kiosk" 5 "vector"
    = Returned (Demo.fresh, []).
Proof.
  destruct (vector_search_zero_division Demo.store_bad_distance Demo.fresh
              "kiosk" 5
              ["a"; "b"] [Demo.meta "u" "A"; Demo.meta "v" "B"] [0%Q; (-1)%Q]
              ("b", Demo.meta "v" "B", (-1)%Q)) as [_ H].
  - reflexivity.
  - apply list_elem_of_further, list_elem_of_here.
  - reflexivity.
  - exact H.
Defined.

Lemma zip3_lookup {A B C} (a : list A) (b : list B) (c : list C) (i : nat)
      x y z :
  Py.zip3 a b c !! i = Some (x, y, z) <->
  a !! i = Some x /\ b !! i = Some y /\ c !! i = Some z.
Proof.
  revert b c i. induction a as [|x' a IH]; intros [|y' b] [|z' c] [|i]; simpl;
    try (split; [discriminate | intros (? & ? & ?); discriminate]).
  - split; [intros [= -> -> ->]; auto
           | intros ([= ->] & [= ->] & [= ->]); reflexivity].
  - apply IH.
Qed.

Lemma zip3_length {A B C} (a : list A) (b : list B) (c : list C) :
  length (Py.zip3 a b c)
  = Nat.min (length a) (Nat.min (length b) (length c)).
Proof.
  revert b c. induction a as [|x a IH]; intros [|y b] [|z c]; simpl;
    try reflexivity; try lia.
  now rewrite IH.
Qed.

Lemma vector_hits_ranks i l hits :
  vector_hits i l = Some hits ->
  forall (j : nat) h, hits !! j = Some h -> vh_rank h = i + Z.of_nat j + 1.
Proof.
  revert i hits. induction l as [|[[doc m] d] l IH]; intros i hits H; simpl in H.
  - inversion H. intros j h Hj. now rewrite lookup_nil in Hj.
  - destruct (Qeq_bool (1 + d) 0); [discriminate|].
    destruct (vector_hits (i + 1) l) as [rest|] eqn:Hr; [|discriminate].
    inversion H; subst. intros [|j] h Hj; simpl in Hj.
    + inversion Hj; subst. simpl. lia.
    + rewrite (IH _ _ Hr j h Hj). lia.
Qed.

(** X14: when no distance is -1, [vector_search] returns one hit per
    candidate the store returned (as many as the shortest of its three lists
    has), in the store's order, the hit at position [j] carrying content,
    metadata and distance of position [j] and the rank [j + 1]. *)
Theorem vector_search_in_store_order (store : Store) (query : string) (n : Z)
        documents metadatas distances :
  collection_query store query n = Some (documents, metadatas, distances) ->
  Forall (fun d => ~ (1 + d == 0)%Q) distances ->
  length (vector_search store query n)
    = Nat.min (length documents)
              (Nat.min (length metadatas) (length distances)) /\
  forall (j : nat) h,
    vector_search store query n !! j = Some h ->
    vh_rank h = Z.of_nat j + 1 /\
    exists d,
      documents !! j = Some (vh_content h) /\
      metadatas !! j = Some (vh_metadata h) /\
      distances !! j = Some d /\
      vh_vector_score h = (1 / (1 + d))%Q.
Proof.
  intros Hq Hd. unfold vector_search. rewrite Hq.
  destruct (vector_hits_total 0 (Py.zip3 documents metadatas distances))
    as [hits Hh].
  { now apply (zip3_distances (fun d => ~ (1 + d == 0)%Q)). }
  rewrite Hh. pose proof (vector_hits_cands _ _ _ Hh) as Hc. split.
  - rewrite <- (Forall2_length _ _ _ Hc). apply zip3_length.
  - intros j h Hj. split.
    + rewrite (vector_hits_ranks _ _ _ Hh j h Hj). lia.
    + destruct (Forall2_lookup_r _ _ _ _ _ Hc Hj)
        as ([[doc m] d] & Hz & Hcont & Hmeta & Hs).
      simpl in Hcont, Hmeta, Hs. apply zip3_lookup in Hz as (H1 & H2 & H3).
      exists d. rewrite Hcont, Hmeta. auto.
Qed.

(** The two candidates of the demo store give the hits B and X, in that
    order. *)
Lemma vector_search_in_store_order_witness :
  length (vector_search Demo.store "kiosk" 10) = 2%nat /\
  forall (j : nat) h,
    vector_search Demo.store "kiosk" 10 !! j = Some h ->
    vh_rank h = Z.of_nat j + 1.
Proof.
  destruct (vector_search_in_store_order Demo.store "kiosk" 10 _ _ _ eq_refl)
    as [Hl Hr].
  { repeat constructor; intros E; vm_compute in E; discriminate E. }
  split; [exact Hl|]. intros j h Hj. now destruct (Hr j h Hj).
Defined.

(** ** Bounds on what a result carries *)

Lemma take_length (n : nat) (s : string) :
  String.length (PyStr.take n s) = Nat.min n (String.length s).
Proof.
  unfold PyStr.take. revert n. induction s as [|c s IH]; intros [|n]; simpl;
    try reflexivity.
  now rewrite IH.
Qed.

Lemma append_length (s t : string) :
  String.length (s ++ t)%string = (String.length s + String.length t)%nat.
Proof. induction s as [|c s IH]; simpl; [reflexivity | now rewrite IH]. Qed.

Lemma take_take_app (n : nat) (s t : string) :
  (n <= String.length s)%nat ->
  PyStr.take n (PyStr.take n s ++ t)%string = PyStr.take n s.
Proof.
  unfold PyStr.take. revert s. induction n as [|n IH]; intros s Hn.
  - destruct s; simpl; now destruct t.
  - destruct s as [|a s]; [simpl in Hn; lia|].
    simpl. f_equal. apply IH. simpl in Hn. lia.
Qed.

Lemma display_length (c : string) :
  (String.length (display c) <= 503)%nat /\
  ((String.length c <= 500)%nat -> display c = c) /\
  ((500 < String.length c)%nat ->
   String.length (display c) = 503%nat /\
   PyStr.take 500 (display c) = PyStr.take 500 c).
Proof.
  unfold display. destruct (Nat.ltb_spec 500 (String.length c)) as [Hlt | Hle].
  - assert (Hl : String.length (PyStr.take 500 c ++ "...")%string = 503%nat).
    { rewrite append_length, take_length.
      change (String.length "...") with 3%nat. lia. }
    split; [lia|]. split; [lia|]. intros _. split; [exact Hl|].
    apply take_take_app. lia.
  - split; [lia|]. split; [reflexivity | lia].
Qed.

Lemma search_result_content (store : Store) (e e' : HybridSearchEngine)
      (query : string) (k : Z) (search_type : string) out :
  search store e query k search_type = Returned (e', out) ->
  Forall (fun r => exists c, SearchResult.content r = display c) out.
Proof.
  unfold search, hybrid_search.
  destruct (String.eqb search_type "vector").
  { intros [= <- <-]. rewrite Forall_forall. intros r Hr.
    apply list_elem_of_In, in_map_iff in Hr as (h & <- & _). simpl. eauto. }
  rewrite !bm25_search_init.
  destruct (String.eqb search_type "bm25");
    (destruct (_initialize_bm25 store e) as [e1|msg]; [|discriminate]);
    intros [= <- <-]; rewrite Forall_forall; intros r Hr.
  - apply list_elem_of_In, in_map_iff in Hr as (h & <- & _). simpl. eauto.
  - apply slice_subseteq, final_results_elem in Hr as (key & c & _ & ->).
    simpl. eauto.
Qed.

(** X15: in every mode, the content of a returned result has at most 503
    characters, whatever the length of the document it shows. *)
Theorem search_content_is_bounded (store : Store) (e e' : HybridSearchEngine)
        (query : string) (k : Z) (search_type : string)
        (out : list SearchResult.t) :
  search store e query k search_type = Returned (e', out) ->
  Forall (fun r => (String.length (SearchResult.content r) <= 503)%nat) out.
Proof.
  intros Hs. eapply Forall_impl; [exact (search_result_content _ _ _ _ _ _ _ Hs)|].
  intros r [c ->]. apply display_length.
Qed.

(** The document of 501 characters comes back with a content of 503. *)
Lemma search_content_is_bounded_witness :
  exists e' r,
    search Demo.store_long Demo.fresh Demo.long_text 5 "bm25"
      = Returned (e', [r]) /\
    String.length Demo.long_text = 501%nat /\
    String.length (SearchResult.content r) = 503%nat.
Proof.
  assert (H : exists e' r,
             search Demo.store_long Demo.fresh Demo.long_text 5 "bm25"
               = Returned (e', [r]) /\
             String.length Demo.long_text = 501%nat /\
             String.length (SearchResult.content r) = 503%nat).
  { vm_compute. eexists _, _. split; [reflexivity|]. split; reflexivity. }
  destruct H as (e' & r & Hs & Hl & Hc).
  pose proof (search_content_is_bounded _ _ _ _ _ _ _ Hs) as Hf.
  apply Forall_cons in Hf as [Hb _].
  exists e', r. repeat split; assumption.
Defined.

(** X16: with non-negative weights and a store that returns non-negative
    distances, every hybrid score that [search] returns is non-negative, in
    each of its modes. *)
Theorem hybrid_score_nonnegative (store : Store) (e e' : HybridSearchEngine)
        (query : string) (k : Z) (search_type : string)
        (out : list SearchResult.t) :
  (0 <= vector_weight e)%Q ->
  (0 <= bm25_weight e)%Q ->
  distances_nonnegative store ->
  search store e query k search_type = Returned (e', out) ->
  Forall (fun r => (0 <= SearchResult.hybrid_score r)%Q) out.
Proof.
  intros Hvw Hbw Hd. unfold search, hybrid_search.
  destruct (String.eqb search_type "vector").
  { intros [= <- <-]. rewrite Forall_forall. intros r Hr.
    apply list_elem_of_In, in_map_iff in Hr as (h & <- & Hh). simpl.
    pose proof (vector_search_bounds store query k Hd) as Hb.
    rewrite Forall_forall in Hb. apply Hb. now apply list_elem_of_In. }
  rewrite !bm25_search_init.
  destruct (String.eqb search_type "bm25");
    (destruct (_initialize_bm25 store e) as [e1|msg] eqn:Hinit; [|discriminate]);
    intros [= <- <-]; rewrite Forall_forall; intros r Hr.
  - apply list_elem_of_In, in_map_iff in Hr as (h & <- & Hh). simpl.
    pose proof (bm25_ranked_positive store e1 query k) as Hp.
    rewrite Forall_forall in Hp. apply Qlt_le_weak, Hp.
    now apply list_elem_of_In.
  - apply slice_subseteq, final_results_elem in Hr as (key & c & Hkc & ->).
    simpl. destruct (initialize_bm25_weights _ _ _ Hinit) as [-> ->].
    pose proof (vector_search_bounds store
                  (QueryEnhancer.enhance_query query) (k * 2) Hd) as Hvb.
    pose proof (bm25_ranked_positive store e1
                  (QueryEnhancer.enhance_query query) (k * 2)) as Hbp.
    rewrite Forall_forall in Hvb. rewrite Forall_forall in Hbp.
    assert (Hvs : (0 <= c_vector_score c)%Q /\ (0 <= c_bm25_score c)%Q).
    { apply combined_results_provenance in Hkc as [_ [Hfv | Hfb]].
      - destruct Hfv as (v & Hv & _ & _ & _ & -> & Hbs).
        split; [now apply Hvb|].
        destruct Hbs as [-> | (b & Hb & _ & ->)]; [apply Qle_refl|].
        now apply Qlt_le_weak, Hbp.
      - destruct Hfb as (b & _ & _ & _ & _ & -> & b' & Hb' & _ & ->).
        split; [apply Qle_refl|]. now apply Qlt_le_weak, Hbp. }
    destruct Hvs as [H1 H2].
    rewrite <- (Qplus_0_r 0). apply Qplus_le_compat; now apply Qmult_le_0_compat.
Qed.

(** The hybrid results of the demo engine, with the weights 0.7 and 0.3. *)
Lemma hybrid_score_nonnegative_witness :
  exists out,
    search Demo.store Demo.fresh "kiosk mode" 5 "hybrid"
      = Returned (Demo.built, out) /\
    length out = 4%nat /\
    Forall (fun r => (0 <= SearchResult.hybrid_score r)%Q) out.
Proof.
  assert (Hs : exists out, search Demo.store Demo.fresh "kiosk mode" 5 "hybrid"
                           = Returned (Demo.built, out) /\ length out = 4%nat).
  { vm_compute. eexists. split; reflexivity. }
  destruct Hs as (out & Hs & Hl). exists out.
  split; [exact Hs|]. split; [exact Hl|].
  apply (hybrid_score_nonnegative Demo.store Demo.fresh Demo.built
           "kiosk mode" 5 "hybrid" out); [discriminate | discriminate | | exact Hs].
  intros query n documents metadatas distances [= <- <- <-].
  repeat constructor; discriminate.
Defined.

(** ** Blank queries *)

Lemma lstrip_chars_blank l :
  Forall (fun c => PyStr.is_space c = true) l -> PyStr.lstrip_chars l = [].
Proof.
  induction 1 as [|c l Hc Hl IH]; simpl; [reflexivity|]. now rewrite Hc.
Qed.

Lemma split_go_blank l :
  Forall (fun c => PyStr.is_space c = true) l -> PyStr.split_go [] l = [].
Proof.
  induction 1 as [|c l Hc Hl IH]; simpl; [reflexivity|]. now rewrite Hc.
Qed.

(** X17: a query that consists of blanks only (the empty query included) is
    enhanced to the empty string and has no keywords. *)
Theorem blank_query (query : string) :
  Forall (fun c => PyStr.is_space c = true) (PyStr.chars query) ->
  QueryEnhancer.enhance_query query = "" /\
  QueryEnhancer.extract_keywords query = [].
Proof.
  intros Hq.
  assert (Hl : Forall (fun c => PyStr.is_space c = true)
                      (PyStr.chars (PyStr.lower query))).
  { unfold PyStr.lower. rewrite chars_str.
    induction Hq as [|c l Hc Hq IH]; simpl; constructor; [|exact IH].
    now rewrite is_space_lower_char. }
  split.
  - unfold QueryEnhancer.enhance_query, PyStr.strip.
    rewrite (lstrip_chars_blank _ Hl). reflexivity.
  - unfold QueryEnhancer.extract_keywords, PyStr.split.
    now rewrite (split_go_blank _ Hl).
Qed.

(** Two blanks and a tabulation. *)
Lemma blank_query_witness :
  QueryEnhancer.enhance_query "  	" = "" /\
  QueryEnhancer.extract_keywords "  	" = [].
Proof.
  apply blank_query. repeat constructor.
Defined.
